(** * Holiday-window sales analysis of the Paulson dashboard

    A shallow embedding of the holiday analysis tabs of [app.py] and
    [dashboard_tabs.py], of the growth and projection columns of
    [app.py], and of [load_sales_data] in [data_loader.py].

    Modelling conventions:
    - a pandas timestamp [sale_date] is a [Z] number of seconds since
      1970-01-01 00:00 (naive, no time zone); a calendar date is a [Z]
      day number; [pd.Timedelta(days=k)] is [k * 86400] seconds;
    - a monetary cell is an [option Q]; [None] is NaN; pandas' [sum]
      skips NaN (rounding of float sums is not modelled, except in the
      [Projection] module which uses the kernel's binary64 floats);
    - [pd.Timestamp(year=, month=, day=)] raising [ValueError] is [None];
    - [Series.unique()] keeps first occurrences and treats missing values
      as one value, while [Series == value] is never true on a missing
      cell. *)

From Stdlib Require Import ZArith QArith List String Ascii Bool Lia.
From Stdlib Require Floats.
From Stdlib Require Import Permutation Sorted Qround.
From Stdlib Require Orders Mergesort.
Import ListNotations.

(* ------------------------------------------------------------------ *)
(** ** Calendar *)

Module Calendar.

Open Scope Z_scope.




(** Day number of a proleptic Gregorian date, 1970-01-01 being day 0. *)
Definition days_from_civil (y m d : Z) : Z :=
  let y' := if m <=? 2 then y - 1 else y in
  let era := y' / 400 in
  let yoe := y' - era * 400 in
  let mp := (m + 9) mod 12 in
  let doy := (153 * mp + 2) / 5 + d - 1 in
  let doe := yoe * 365 + yoe / 4 - yoe / 100 + doy in
  era * 146097 + doe - 719468.


Definition seconds_per_day : Z := 86400.

(** [ts.dt.date] as a day number. *)
Definition day_of (ts : Z) : Z := ts / seconds_per_day.

(** A date at midnight as a timestamp. *)
Definition midnight (dn : Z) : Z := dn * seconds_per_day.

(** [pd.Timedelta(days=k)]. *)
Definition timedelta_days (k : Z) : Z := k * seconds_per_day.

End Calendar.

(* ------------------------------------------------------------------ *)
(** ** Sales records and pandas helpers *)

Module Sales.

Import Calendar.

(** One row of [raw_sales_data] after [load_sales_data]. *)
Record SaleRecord := {
  sale_date : Z;
  center_name : option string;
  sales_collected_inc_tax : option Q;
  sales_collected_exc_tax : option Q
}.

(** [Series.sum()] over a column: NaN cells are skipped, an empty sum
    is 0. *)
Fixpoint sum_col (col : SaleRecord -> option Q) (l : list SaleRecord) : Q :=
  match l with
  | [] => 0%Q
  | r :: t =>
      match col r with
      | Some q => (q + sum_col col t)%Q
      | None => sum_col col t
      end
  end.

(** [Series == c]: a missing cell never compares equal. *)
Definition center_eq (x c : option string) : bool :=
  match x, c with
  | Some a, Some b => String.eqb a b
  | _, _ => false
  end.

(** Structural equality on cells, as used by [unique()]. *)
Definition cell_eqb (x y : option string) : bool :=
  match x, y with
  | Some a, Some b => String.eqb a b
  | None, None => true
  | _, _ => false
  end.

(** [Series.unique()]: first occurrences, in order of appearance. *)
Fixpoint unique_from {A} (eqb : A -> A -> bool) (seen : list A) (l : list A)
  : list A :=
  match l with
  | [] => []
  | x :: t =>
      if existsb (eqb x) seen then unique_from eqb seen t
      else x :: unique_from eqb (x :: seen) t
  end.

Definition unique {A} (eqb : A -> A -> bool) (l : list A) : list A :=
  unique_from eqb [] l.



End Sales.

(* ------------------------------------------------------------------ *)
(** ** Holiday window engine (tab 5 of [app.py],
       [render_holidays_analysis_tab] of [dashboard_tabs.py]) *)

Module Holidays.

Import Calendar Sales.


(** A row appended to [all_years_data]: the all-centers row has no
    [CenterName] key, a center row has one (whose value may be NaN). *)
Inductive RowCenter :=
  | NoCenterKey
  | CenterName (c : option string).

Record HolidayRow := {
  hr_festival : string;
  hr_date : Z;
  hr_year : Z;
  hr_mtd : Q;
  hr_center : RowCenter
}.




(** [start_date = festival_date - pd.Timedelta(days=3)] and
    [end_date = festival_date + pd.Timedelta(days=2)]. *)
Definition lookback : Z := 3.
Definition lookahead : Z := 2.

Definition window_bounds (festival_date : Z) : Z * Z :=
  (midnight festival_date - timedelta_days lookback,
   midnight festival_date + timedelta_days lookahead).

(** [(sale_date >= start_date) & (sale_date <= end_date)]. *)
Definition in_window (bounds : Z * Z) (r : SaleRecord) : bool :=
  (fst bounds <=? sale_date r) && (sale_date r <=? snd bounds).

(** Number of calendar days from [start_date] to [end_date], both
    included. *)
Definition window_length_days (bounds : Z * Z) : Z :=
  day_of (snd bounds) - day_of (fst bounds) + 1.

(** A row of [festival_performance]. *)
Record Performance := {
  pe_festival : string;
  pe_year : Z;
  pe_date : Z;
  pe_center : option string;
  pe_total : Q;
  pe_avg : Q
}.

Definition mk_performance (festival : string) (year date : Z)
    (center : option string) (window_sales : Q) : Performance :=
  {| pe_festival := festival; pe_year := year; pe_date := date;
     pe_center := center; pe_total := window_sales;
     pe_avg := (window_sales / 6)%Q (* 6 days window *) |}.

(** [if window_sales > 0: festival_performance.append(...)]. *)
Definition append_if_sales (p : Performance) : list Performance :=
  if Qle_bool (pe_total p) 0 then [] else [p].

(** [app.py]: window of one festival date, filtered by center when
    one is selected. *)
Definition app_window_data (selected_center : option string)
    (raw : list SaleRecord) (festival_date : Z) : list SaleRecord :=
  let b := window_bounds festival_date in
  match selected_center with
  | Some c =>
      filter (fun r => center_eq (center_name r) (Some c) && in_window b r) raw
  | None => filter (in_window b) raw
  end.

(** [window_data[col].sum()] for a column [col]. *)
Definition window_sales_of (amount : SaleRecord -> option Q)
    (selected_center : option string) (raw : list SaleRecord)
    (festival_date : Z) : Q :=
  sum_col amount (app_window_data selected_center raw festival_date).

(** [window_data['sales_collected_inc_tax'].sum()]. *)
Definition app_window_sales (selected_center : option string)
    (raw : list SaleRecord) (festival_date : Z) : Q :=
  window_sales_of sales_collected_inc_tax selected_center raw festival_date.

(** [app.py] loop over the festivals and their dates; [year] is
    [festival_date.year], which is the row's [Year] by construction. *)
Definition app_festival_performance (selected_years : list Z)
    (selected_center : option string) (raw : list SaleRecord)
    (leaves_data : list HolidayRow) : list Performance :=
  flat_map (fun festival =>
    let festival_dates :=
      filter (fun h => String.eqb (hr_festival h) festival
                       && existsb (Z.eqb (hr_year h)) selected_years)
             leaves_data in
    flat_map (fun h =>
      let center := match selected_center with
                    | Some c => Some c
                    | None => Some "All Centers"%string
                    end in
      append_if_sales
        (mk_performance festival (hr_year h) (hr_date h) center
           (app_window_sales selected_center raw (hr_date h))))
      festival_dates)
    (unique String.eqb (map hr_festival leaves_data)).

(** [dashboard_tabs.py]: [center_filtered_sales] then the date filter. *)
Definition center_filtered_sales (selected_center : option string)
    (raw : list SaleRecord) : list SaleRecord :=
  match selected_center with
  | Some c => filter (fun r => center_eq (center_name r) (Some c)) raw
  | None => raw
  end.

Definition tabs_center_window_sales (selected_center : option string)
    (raw : list SaleRecord) (festival_date : Z) : Q :=
  sum_col sales_collected_exc_tax
    (filter (in_window (window_bounds festival_date))
       (center_filtered_sales selected_center raw)).

(** [dashboard_tabs.py], all centers: one window per center of
    [raw_sales_data['center_name'].unique()]. *)
Definition per_center_window_sales (amount : SaleRecord -> option Q)
    (raw : list SaleRecord) (festival_date : Z) (center : option string) : Q :=
  sum_col amount
    (filter (fun r => center_eq (center_name r) center
                      && in_window (window_bounds festival_date) r) raw).

Definition tabs_per_center_window_sales (raw : list SaleRecord)
    (festival_date : Z) (center : option string) : Q :=
  per_center_window_sales sales_collected_exc_tax raw festival_date center.



Definition tabs_festival_performance (selected_years : list Z)
    (selected_center : option string) (raw : list SaleRecord)
    (holiday_df : list HolidayRow) : list Performance :=
  flat_map (fun festival =>
    let festival_dates :=
      filter (fun h => String.eqb (hr_festival h) festival) holiday_df in
    flat_map (fun h =>
      if existsb (Z.eqb (hr_year h)) selected_years then
        match selected_center with
        | Some c =>
            append_if_sales
              (mk_performance festival (hr_year h) (hr_date h) (Some c)
                 (tabs_center_window_sales selected_center raw (hr_date h)))
        | None =>
            flat_map (fun center =>
              append_if_sales
                (mk_performance festival (hr_year h) (hr_date h) center
                   (tabs_per_center_window_sales raw (hr_date h) center)))
              (unique cell_eqb (map center_name raw))
        end
      else [])
      festival_dates)
    (unique String.eqb (map hr_festival holiday_df)).

(** [performance_df.sort_values('Total Window Sales', ascending=False)]
    applied to the rows that passed the [window_sales > 0] gate; the
    aggregates are the rows built for every window, before the gate.
    [sort_values] is pandas' sort with its default [kind='quicksort'],
    which promises a descending order by the column but not a stable
    one; it is a parameter. *)
Definition rank_windows (sort_values : list Performance -> list Performance)
    (aggregates : list Performance) : list Performance :=
  sort_values (flat_map append_if_sales aggregates).

End Holidays.

(* ------------------------------------------------------------------ *)
(** ** Year-over-year growth columns (tab 2 and tab 4 of [app.py]) *)

Module Growth.

(** A float64 cell of a pivot table, with the special values of IEEE
    arithmetic that pandas' column division produces (rounding is not
    modelled): a finite value, an infinity (the flag is the sign,
    [true] for negative) or NaN. *)
Inductive xfloat :=
  | Fin (q : Q)
  | Inf (neg : bool)
  | NaN.

Definition is_zero (q : Q) : bool := Qeq_bool q 0.
Definition is_neg (q : Q) : bool := negb (Qle_bool 0 q).

(** Division of float64 values; a zero divisor is [+0.0] (a sum of
    sales or a pivot cell, never a negative zero). *)
Definition fdiv (x y : xfloat) : xfloat :=
  match x, y with
  | Fin a, Fin b =>
      if is_zero b then (if is_zero a then NaN else Inf (is_neg a))
      else Fin (a / b)
  | Inf s, Fin b => if is_zero b then Inf s else Inf (xorb s (is_neg b))
  | Fin _, Inf _ => Fin 0
  | Inf _, Inf _ => NaN
  | NaN, _ | _, NaN => NaN
  end.

Definition fsub (x y : xfloat) : xfloat :=
  match x, y with
  | Fin a, Fin b => Fin (a - b)
  | Inf s, Fin _ => Inf s
  | Fin _, Inf t => Inf (negb t)
  | Inf s, Inf t => if Bool.eqb s t then NaN else Inf s
  | NaN, _ | _, NaN => NaN
  end.

Definition fmul (x y : xfloat) : xfloat :=
  match x, y with
  | Fin a, Fin b => Fin (a * b)
  | Inf s, Fin b | Fin b, Inf s =>
      if is_zero b then NaN else Inf (xorb s (is_neg b))
  | Inf s, Inf t => Inf (xorb s t)
  | NaN, _ | _, NaN => NaN
  end.

(** [((pivot_data[current_year] / pivot_data[prev_year]) - 1) * 100]. *)
Definition growth (prev cur : xfloat) : xfloat :=
  fmul (fsub (fdiv cur prev) (Fin 1)) (Fin 100).

(** The growth columns of one pivot row: [for i in range(1, len(years))],
    one column ["Growth {prev_year} to {current_year}"] per adjacent pair
    of the (ascending) year columns. *)
Fixpoint growth_columns (row : list (Z * xfloat)) : list (Z * Z * xfloat) :=
  match row with
  | (prev_year, prev) :: (((current_year, cur) :: _) as rest) =>
      (prev_year, current_year, growth prev cur) :: growth_columns rest
  | _ => []
  end.

End Growth.

(* ------------------------------------------------------------------ *)
(** ** Projected (10% Growth) column, in binary64 arithmetic *)

Module Projection.

Import Floats.
Local Open Scope float_scope.
Local Set Warnings "-inexact-float".

(** [pivot_data[latest_year] * 1.10] (tab 2) and
    [... * 1.1] (tab 4): the same binary64 constant. *)
Definition project (latest : float) : float := latest * 1.10.

(** The formula of the growth comparator, with an explicit rate. *)
Definition project_with_rate (latest rate : float) : float :=
  latest * (1 + rate).

End Projection.

(* ------------------------------------------------------------------ *)
(** ** Normalizer: [load_sales_data] of [data_loader.py] *)

Module Loader.

Import Calendar.
Local Open Scope Z_scope.

(** A cell of a numeric column as fetched: a number, a string or a
    missing value. *)
Inductive RawCell :=
  | CellNum (q : Q)
  | CellStr (s : string)
  | CellNull.


(** A row of [sales_data] after cleaning; a numeric cell is [None]
    when it is NaN. *)
Record NormRecord := {
  sale_date : Z;
  center_name : option string;
  BRAND : string;
  sales_collected_exc_tax : option Q;
  tax_collected : option Q;
  sales_collected_inc_tax : option Q;
  redeemed : option Q;
  collected_to_date : option Q;
  collected : option Q
}.

(** Removes every occurrence of a non-empty [pat]; [fuel] bounds the
    number of characters scanned. *)
Fixpoint remove_all_fuel (fuel : nat) (pat s : string) : string :=
  match fuel with
  | O => s
  | S f =>
      match s with
      | EmptyString => EmptyString
      | String c rest =>
          if String.prefix pat s
          then remove_all_fuel f pat
                 (substring (String.length pat) (String.length s) s)
          else String c (remove_all_fuel f pat rest)
      end
  end.

Definition remove_all (pat s : string) : string :=
  remove_all_fuel (String.length s) pat s.

(** The rupee sign as mis-decoded in the source ([U+00E2 U+201A U+00B9]),
    in UTF-8. *)
Definition rupee_mojibake : string :=
  String (Ascii.ascii_of_nat 195) (String (Ascii.ascii_of_nat 162)
  (String (Ascii.ascii_of_nat 226) (String (Ascii.ascii_of_nat 128)
  (String (Ascii.ascii_of_nat 154) (String (Ascii.ascii_of_nat 194)
  (String (Ascii.ascii_of_nat 185) EmptyString)))))).

(** [replace({'\$': '', 'â‚¹': '', ',': ''}, regex=True)]: only string
    cells are rewritten. *)
Definition clean_text (s : string) : string :=
  remove_all ","%string (remove_all rupee_mojibake (remove_all "$"%string s)).

Definition clean_cell (c : RawCell) : RawCell :=
  match c with
  | CellStr s => CellStr (clean_text s)
  | _ => c
  end.

Definition digit_val (c : Ascii.ascii) : option Z :=
  let n := Ascii.nat_of_ascii c in
  if (48 <=? n)%nat && (n <=? 57)%nat then Some (Z.of_nat n - 48) else None.

Fixpoint digits_value (acc : Z) (s : string) : option Z :=
  match s with
  | EmptyString => Some acc
  | String c t =>
      match digit_val c with
      | Some d => digits_value (acc * 10 + d) t
      | None => None
      end
  end.


(** *** [pd.to_numeric(errors='coerce')] on a text cell

    pandas reads a text cell with [floatify], which runs the C routine
    [precise_xstrtod] on the UTF-8 bytes of the text and fails unless the
    whole text is read; when the text is an integer it then also runs
    Python's [int(val)]. A failure is NaN under [errors='coerce']. *)

(** [isspace_ascii]: space, tab, line feed, vertical tab, form feed,
    carriage return. *)
Definition is_space_ascii (c : Ascii.ascii) : bool :=
  let n := Ascii.nat_of_ascii c in
  (n =? 32)%nat || ((9 <=? n)%nat && (n <=? 13)%nat).

Fixpoint skip_spaces (s : string) : string :=
  match s with
  | String c t => if is_space_ascii c then skip_spaces t else s
  | EmptyString => s
  end.

(** The bytes a C routine sees: the text up to its first NUL byte. *)
Fixpoint c_string (s : string) : string :=
  match s with
  | String c t =>
      if (Ascii.nat_of_ascii c =? 0)%nat then EmptyString else String c (c_string t)
  | EmptyString => EmptyString
  end.

Fixpoint has_nul (s : string) : bool :=
  match s with
  | String c t => (Ascii.nat_of_ascii c =? 0)%nat || has_nul t
  | EmptyString => false
  end.

(** An optional ['-'] or ['+']: whether it negates, and the rest. *)
Definition take_sign (s : string) : bool * string :=
  match s with
  | String c t =>
      if Ascii.eqb c "-"%char then (true, t)
      else if Ascii.eqb c "+"%char then (false, t) else (false, s)
  | EmptyString => (false, s)
  end.

(** The longest run of at most [fuel] digits at the head of [s]: [acc]
    extended by their value, their number, and the rest of [s]. *)
Fixpoint take_digits (fuel : nat) (acc : Z) (s : string) : Z * nat * string :=
  match fuel, s with
  | S f, String c t =>
      match digit_val c with
      | Some d => let '(v, n, r) := take_digits f (acc * 10 + d) t in (v, S n, r)
      | None => (acc, O, s)
      end
  | _, _ => (acc, O, s)
  end.

(** [precise_xstrtod(s, &end, '.', 'E', '\0', 1, &error, &maybe_int)]
    succeeding with [*end] at the end of [s]: leading spaces, a sign,
    digits, an optional ['.'] and digits (at least one digit in all), an
    optional exponent ([e] or [E], a sign, at most 8 digits), trailing
    spaces. The result is the sign, the mantissa digits as an integer
    [m], the power of ten [k] (the value is [m * 10 ^ k]), and
    [maybe_int] (no ['.'] and no exponent). An [e] with no digit after
    it is given back, so the text is not read to its end. *)
Definition xstrtod (s : string) : option (bool * Z * Z * bool) :=
  let '(neg, s1) := take_sign (skip_spaces s) in
  let '(ip, ni, s2) := take_digits (String.length s1) 0 s1 in
  let '(m, nd, nf, maybe_int, s3) :=
    match s2 with
    | String c t =>
        if Ascii.eqb c "."%char then
          let '(m, nf, r) := take_digits (String.length t) ip t in
          (m, (ni + nf)%nat, nf, false, r)
        else (ip, ni, O, true, s2)
    | EmptyString => (ip, ni, O, true, s2)
    end in
  if (nd =? 0)%nat then None
  else
    let '(e, maybe_int', s4) :=
      match s3 with
      | String c t =>
          if Ascii.eqb c "e"%char || Ascii.eqb c "E"%char then
            let '(eneg, t1) := take_sign t in
            let '(ev, ne, t2) := take_digits 8 0 t1 in
            if (ne =? 0)%nat then (0, false, s3)
            else ((if eneg then - ev else ev), false, t2)
          else (0, maybe_int, s3)
      | EmptyString => (0, maybe_int, s3)
      end in
    match skip_spaces s4 with
    | EmptyString => Some (neg, m, e - Z.of_nat nf, maybe_int')
    | String _ _ => None
    end.

(** [m * 10 ^ k], negated when [neg]. *)
Definition decimal_value (neg : bool) (m k : Z) : Q :=
  let v := if 0 <=? k then inject_Z (m * 10 ^ k)
           else (inject_Z m / inject_Z (10 ^ (- k)))%Q in
  if neg then (- v)%Q else v.

(** [pd.to_numeric(errors='coerce')] on a text cell; [None] is NaN. An
    integer text with a NUL byte is read by [floatify] up to the NUL, but
    [int(val)] then raises, so it is NaN.

    Amounts are exact rationals in this development, so the binary64
    rounding of [precise_xstrtod] (at most 17 significant digits, overflow
    beyond about [1.8e308], which [floatify] reports as an error, and
    underflow to 0) is not represented; nor are the spellings [inf],
    [+inf], [-inf], [infinity], [+infinity], [-infinity] (in any case),
    which [floatify] reads as an infinite float and which are NaN here. *)
Definition parse_decimal (s : string) : option Q :=
  match xstrtod (c_string s) with
  | Some (neg, m, k, maybe_int) =>
      if maybe_int && has_nul s then None else Some (decimal_value neg m k)
  | None => None
  end.

(** [pd.to_numeric(col, errors='coerce')] on one cell: [None] is NaN. *)
Definition to_numeric (c : RawCell) : option Q :=
  match c with
  | CellNum q => Some q
  | CellStr s => parse_decimal s
  | CellNull => None
  end.

Definition clean_numeric (c : RawCell) : option Q := to_numeric (clean_cell c).

(** *** [load_sales_data] *)







Section Load.

(** [pd.to_datetime(column, errors='coerce')], read at a position: the
    timestamp of the cell, in whole seconds, or [None] for NaT. pandas
    infers one format for the whole column from its first non-null cell
    and reads every cell with it, so the value at a position depends on
    the whole column; the function is left abstract. *)
Variable to_datetime : list (option string) -> nat -> option Z.



End Load.

(** *** [pd.to_datetime] on a column of ISO dates *)









End Loader.

(* ------------------------------------------------------------------ *)
(** ** Sample inputs used by the examples below *)

Module Samples.

Import Calendar Sales Holidays Loader.
Local Open Scope Z_scope.


Definition diwali_2023 : Z := days_from_civil 2023 10 24.

(** A sale at midnight of day [dn]. *)
Definition sale_on (dn : Z) (center : option string) (inc exc : Q)
  : SaleRecord :=
  {| Sales.sale_date := midnight dn; Sales.center_name := center;
     Sales.sales_collected_inc_tax := Some inc;
     Sales.sales_collected_exc_tax := Some exc |}.



End Samples.

(** A sort by descending total, used to instantiate [rank_windows] in
    examples: Stdlib's merge sort. *)
Module PerformanceDesc <: Orders.TotalLeBool.

Definition t := Holidays.Performance.

Definition leb (p q : t) : bool :=
  Qle_bool (Holidays.pe_total q) (Holidays.pe_total p).

Lemma leb_total : forall p q, leb p q = true \/ leb q p = true.
Proof.
  intros p q. unfold leb. rewrite !Qle_bool_iff.
  destruct (Qlt_le_dec (Holidays.pe_total p) (Holidays.pe_total q)) as [H|H];
    [right; apply Qlt_le_weak; exact H|left; exact H].
Qed.

End PerformanceDesc.

Module PerformanceSort := Mergesort.Sort PerformanceDesc.

(* ------------------------------------------------------------------ *)
(** ** Money text: [format_indian_money] of [format_utils.py] and [app.py]

    Text is a list of UTF-8 bytes.  An amount is an [option Q] as in the
    rest of the file ([None] is NaN). *)

Module Format.

Local Open Scope Z_scope.

Definition comma : ascii := ","%char.
Definition minus : ascii := "-"%char.

(** The rupee sign U+20B9 of the f-strings, in UTF-8. *)
Definition rupee : list ascii :=
  [Ascii.ascii_of_nat 226; Ascii.ascii_of_nat 130; Ascii.ascii_of_nat 185].

(** [round(x)] on a float: the nearest integer, ties to the even one. *)
Definition py_round (q : Q) : Z :=
  let f := Qfloor q in
  let d := (q - inject_Z f)%Q in
  if Qeq_bool d (1 # 2) then (if Z.even f then f else f + 1)
  else if Qle_bool d (1 # 2) then f else f + 1.

Definition digit_char (d : Z) : ascii := Ascii.ascii_of_nat (48 + Z.to_nat d).

(** Decimal digits of [n >= 0], prepended to [acc]; [fuel] bounds the
    number of divisions by 10. *)
Fixpoint str_nat_fuel (fuel : nat) (n : Z) (acc : list ascii) : list ascii :=
  match fuel with
  | O => digit_char (n mod 10) :: acc
  | S f =>
      if n <? 10 then digit_char (n mod 10) :: acc
      else str_nat_fuel f (n / 10) (digit_char (n mod 10) :: acc)
  end.

Definition str_nat (n : Z) : list ascii :=
  str_nat_fuel (Z.to_nat (Z.log2 n)) n [].

(** [str(n)] of a Python [int]. *)
Definition str_int (n : Z) : list ascii :=
  if n <? 0 then minus :: str_nat (- n) else str_nat n.

(** [l[a:b]] for [0 <= a <= b]. *)
Definition slice (a b : nat) (l : list ascii) : list ascii :=
  firstn (b - a) (skipn a l).

(** The indices of [range(n - 1, -1, -2)]. *)
Fixpoint range_down2 (n : nat) : list nat :=
  match n with
  | O => []
  | S O => [O]
  | S (S k as m) => m :: range_down2 k
  end.

(** One turn of the [for i in range(len(rest)-1, -1, -2)] loop. *)
Definition group_step (rest formatted_rest : list ascii) (i : nat)
  : list ascii :=
  if Nat.eqb i 0 then nth i rest " "%char :: formatted_rest
  else comma :: slice (Nat.max (i - 1) 0) (i + 1) rest ++ formatted_rest.

(** The body of [format_with_indian_commas] after
    [s = str(int(round(num)))]. *)
Definition group_digits (s : list ascii) : list ascii :=
  if Nat.ltb 3 (List.length s) then
    let last3 := skipn (List.length s - 3) s in
    let rest := firstn (List.length s - 3) s in
    let formatted_rest :=
      fold_left (group_step rest) (range_down2 (List.length rest)) [] in
    let result :=
      match formatted_rest with
      | [] => last3
      | _ => formatted_rest ++ comma :: last3
      end in
    match result with
    | c :: r => if Ascii.eqb c comma then r else result
    | [] => result
    end
  else s.

Definition format_with_indian_commas (num : Q) : list ascii :=
  group_digits (str_int (py_round num)).

(** [format_indian_money(amount)] with the default [format_type='full'],
    the only form its callers use. *)
Definition format_indian_money (amount : option Q) : list ascii :=
  match amount with
  | None => rupee ++ ["0"%char]
  | Some q =>
      if Qeq_bool q 0 then rupee ++ ["0"%char]
      else rupee ++ format_with_indian_commas q
  end.

(** The text the loop of [format_with_indian_commas] builds from [rest]:
    pairs of characters taken from the right, each after a comma. *)
Fixpoint pairs_rev (r : list ascii) : list ascii :=
  match r with
  | b :: a :: t => b :: a :: comma :: pairs_rev t
  | _ => r
  end.

Definition group_pairs (l : list ascii) : list ascii := rev (pairs_rev (rev l)).

(** The final [if result.startswith(','): result = result[1:]]. *)
Definition strip_comma (l : list ascii) : list ascii :=
  match l with
  | c :: r => if Ascii.eqb c comma then r else l
  | [] => l
  end.

Definition remove_commas (l : list ascii) : list ascii :=
  filter (fun c => negb (Ascii.eqb c comma)) l.

(** The characters [str()] writes for an [int]. *)
Definition is_digit_char (c : ascii) : Prop :=
  exists d, 0 <= d < 10 /\ c = digit_char d.

(** Text of a list of bytes. *)
Definition text (l : list ascii) : string := string_of_list_ascii l.

End Format.

(* ------------------------------------------------------------------ *)
(** ** Monthly grouping: [create_grouped_sales] of [data_loader.py], the
    [Year] and [Month] columns of [load_sales_data], the month order of
    [format_utils.py] and the metrics of [render_mtd_sales_tab] *)

Module Grouped.

Import Calendar Sales Loader.
Local Open Scope Z_scope.

(** [Timestamp.year], [.month], [.day] of a day number (the inverse of
    [days_from_civil]). *)
Definition civil_from_days (dn : Z) : Z * Z * Z :=
  let z := dn + 719468 in
  let era := z / 146097 in
  let doe := z - era * 146097 in
  let yoe := (doe - doe / 1460 + doe / 36524 - doe / 146096) / 365 in
  let y := yoe + era * 400 in
  let doy := doe - (365 * yoe + yoe / 4 - yoe / 100) in
  let mp := (5 * doy + 2) / 153 in
  let d := doy - (153 * mp + 2) / 5 + 1 in
  let m := if mp <? 10 then mp + 3 else mp - 9 in
  (if m <=? 2 then y + 1 else y, m, d).

Definition year_of (ts : Z) : Z := fst (fst (civil_from_days (day_of ts))).
Definition month_of (ts : Z) : Z := snd (fst (civil_from_days (day_of ts))).

(** [strftime('%B')] in the C locale. *)
Definition strftime_B (m : Z) : string :=
  match m with
  | 1 => "January" | 2 => "February" | 3 => "March" | 4 => "April"
  | 5 => "May" | 6 => "June" | 7 => "July" | 8 => "August"
  | 9 => "September" | 10 => "October" | 11 => "November"
  | 12 => "December"
  | _ => ""
  end%string.

(** A row of [sales_data] as [create_grouped_sales] receives it: the
    cleaned record and its [invoice_no]. *)
Record SalesRow := {
  row : NormRecord;
  invoice_no : option string
}.

(** [sale_date.dt.year.astype(str)]. *)
Definition Year (r : SalesRow) : string :=
  string_of_list_ascii (Format.str_int (year_of (Loader.sale_date (row r)))).

(** [sale_date.dt.strftime('%B')]. *)
Definition Month (r : SalesRow) : string :=
  strftime_B (month_of (Loader.sale_date (row r))).

(** [sales_data['SALON NAMES'] = sales_data['center_name']]. *)
Definition SALON_NAMES (r : SalesRow) : option string :=
  Loader.center_name (row r).

(** The keys [Year, Month, SALON NAMES, BRAND]. *)
Definition GroupKey : Type := (string * string * string * string)%type.

(** The key of a row; [groupby] drops a row whose key holds a NaN, and
    only [SALON NAMES] can be missing. *)
Definition group_key (r : SalesRow) : option GroupKey :=
  match SALON_NAMES r with
  | Some s => Some (Year r, Month r, s, BRAND (row r))
  | None => None
  end.

Definition key_eqb (k1 k2 : GroupKey) : bool :=
  match k1, k2 with
  | (a1, b1, c1, d1), (a2, b2, c2, d2) =>
      String.eqb a1 a2 && String.eqb b1 b2 && String.eqb c1 c2
      && String.eqb d1 d2
  end.

(** Python's tuple order on string keys (code point order, which is the
    byte order of UTF-8). *)
Definition key_compare (k1 k2 : GroupKey) : comparison :=
  match k1, k2 with
  | (a1, b1, c1, d1), (a2, b2, c2, d2) =>
      match String.compare a1 a2 with
      | Eq =>
          match String.compare b1 b2 with
          | Eq =>
              match String.compare c1 c2 with
              | Eq => String.compare d1 d2
              | o => o
              end
          | o => o
          end
      | o => o
      end
  end.

Definition key_leb (k1 k2 : GroupKey) : bool :=
  match key_compare k1 k2 with Gt => false | _ => true end.

Definition option_list {A} (o : option A) : list A :=
  match o with Some x => [x] | None => [] end.

(** Rows of the group [k]. *)
Definition in_group (k : GroupKey) (r : SalesRow) : bool :=
  match group_key r with Some k' => key_eqb k' k | None => false end.

(** [sum] of [sales_collected_exc_tax]: NaN skipped, empty sum 0. *)
Fixpoint sum_exc (l : list SalesRow) : Q :=
  match l with
  | [] => 0%Q
  | r :: t =>
      match Loader.sales_collected_exc_tax (row r) with
      | Some q => (q + sum_exc t)%Q
      | None => sum_exc t
      end
  end.

(** [nunique] of [invoice_no]: distinct non-missing values. *)
Definition nunique_invoices (l : list SalesRow) : Z :=
  Z.of_nat (List.length (unique String.eqb (flat_map (fun r => option_list (invoice_no r)) l))).

(** A row of [grouped_sales]. *)
Record GroupedRow := {
  g_Year : string;
  g_Month : string;
  g_SALON_NAMES : string;
  g_BRAND : string;
  MTD_SALES : Q;
  MTD_BILLS : Z;
  MTD_ABV : Q
}.

(** [row['MTD SALES'] / row['MTD BILLS'] if row['MTD BILLS'] > 0 else 0]. *)
Definition mtd_abv (sales : Q) (bills : Z) : Q :=
  if 0 <? bills then (sales / inject_Z bills)%Q else 0%Q.

Definition grouped_row (rows : list SalesRow) (k : GroupKey) : GroupedRow :=
  let g := filter (in_group k) rows in
  let s := sum_exc g in
  let b := nunique_invoices g in
  match k with
  | (y, m, c, br) =>
      {| g_Year := y; g_Month := m; g_SALON_NAMES := c; g_BRAND := br;
         MTD_SALES := s; MTD_BILLS := b; MTD_ABV := mtd_abv s b |}
  end.

Definition g_key (g : GroupedRow) : GroupKey :=
  (g_Year g, g_Month g, g_SALON_NAMES g, g_BRAND g).

(** The [create_month_order] list. *)
Definition create_month_order : list string :=
  ["January"; "February"; "March"; "April"; "May"; "June";
   "July"; "August"; "September"; "October"; "November"; "December"]%string.

(** The code of a value in [pd.Categorical(..., categories=month_order)]:
    its position in the categories, or [None] (NaN) when absent. *)
Fixpoint category_code (cats : list string) (v : string) : option nat :=
  match cats with
  | [] => None
  | c :: t =>
      if String.eqb c v then Some O
      else option_map S (category_code t v)
  end.

(** [add_month_sorting_column]: the [Month_Sorted] code of a month. *)
Definition month_sorted (month : string) : option nat :=
  category_code create_month_order month.

(** The filters of [render_mtd_sales_tab]: each applies unless the
    selection is ["All"]. *)
Definition select_rows (sel : string) (field : GroupedRow -> string)
    (g : list GroupedRow) : list GroupedRow :=
  if negb (String.eqb sel "All") then filter (fun r => String.eqb (field r) sel) g
  else g.

Definition mtd_filtered (selected_year selected_brand selected_month : string)
    (grouped : list GroupedRow) : list GroupedRow :=
  select_rows selected_month g_Month
    (select_rows selected_brand g_BRAND
       (select_rows selected_year g_Year grouped)).

Fixpoint total_sales (g : list GroupedRow) : Q :=
  match g with [] => 0%Q | r :: t => (MTD_SALES r + total_sales t)%Q end.

Fixpoint total_bills (g : list GroupedRow) : Z :=
  match g with [] => 0 | r :: t => MTD_BILLS r + total_bills t end.

Definition avg_bill_value (g : list GroupedRow) : Q :=
  if 0 <? total_bills g then (total_sales g / inject_Z (total_bills g))%Q
  else 0%Q.

Definition total_outlets (g : list GroupedRow) : nat :=
  List.length (unique String.eqb (map g_SALON_NAMES g)).



(** The test of a selection box of [render_mtd_sales_tab]: ["All"] keeps
    every value. *)
Definition selected (sel v : string) : bool :=
  String.eqb sel "All" || String.eqb v sel.

(** The parts of [civil_from_days] computed from the day of the 400-year
    era. *)
Definition yoe_of_doe (doe : Z) : Z :=
  (doe - doe / 1460 + doe / 36524 - doe / 146096) / 365.
Definition doy_of_doe (doe : Z) : Z :=
  let yoe := yoe_of_doe doe in doe - (365 * yoe + yoe / 4 - yoe / 100).
Definition month_of_doe (doe : Z) : Z :=
  let mp := (5 * doy_of_doe doe + 2) / 153 in
  if mp <? 10 then mp + 3 else mp - 9.
Definition day_of_doe (doe : Z) : Z :=
  let doy := doy_of_doe doe in
  let mp := (5 * doy + 2) / 153 in
  doy - (153 * mp + 2) / 5 + 1.



End Grouped.

(** Key order of [groupby(sort=True)]: Stdlib's merge sort on the
    lexicographic order of the keys. *)
Module KeyOrder <: Orders.TotalLeBool.

Definition t := Grouped.GroupKey.

Definition leb := Grouped.key_leb.

Lemma key_leb_total : forall p q, leb p q = true \/ leb q p = true.
Proof.
  intros [[[a1 b1] c1] d1] [[[a2 b2] c2] d2]. unfold leb, Grouped.key_leb,
    Grouped.key_compare.
  rewrite (String.compare_antisym a2 a1), (String.compare_antisym b2 b1),
    (String.compare_antisym c2 c1), (String.compare_antisym d2 d1).
  destruct (String.compare a1 a2), (String.compare b1 b2),
    (String.compare c1 c2), (String.compare d1 d2); simpl; auto.
Qed.

Definition leb_total := key_leb_total.

End KeyOrder.

Module KeySort := Mergesort.Sort KeyOrder.

(** [create_grouped_sales]: one row per key, keys in ascending order. *)
Module GroupedSales.

Import Grouped.

Definition group_keys (rows : list SalesRow) : list GroupKey :=
  KeySort.sort (Sales.unique key_eqb (flat_map (fun r => option_list (group_key r)) rows)).

Definition create_grouped_sales (rows : list SalesRow) : list GroupedRow :=
  map (grouped_row rows) (group_keys rows).

End GroupedSales.

(* ================================================================== *)
(** * Properties *)

Module HolidayFacts.

Import Calendar Sales Holidays Samples.
Local Open Scope Z_scope.








Lemma day_of_midnight_shift (dn k : Z) :
  day_of (midnight dn + timedelta_days k) = dn + k.
Proof.
  unfold day_of, midnight, timedelta_days, seconds_per_day.
  replace (dn * 86400 + k * 86400) with ((dn + k) * 86400) by ring.
  apply Z.div_mul. lia.
Qed.

Lemma window_bounds_midnight (dn : Z) :
  window_bounds dn = (midnight (dn - lookback), midnight (dn + lookahead)).
Proof.
  unfold window_bounds, midnight, timedelta_days. f_equal; ring.
Qed.

Lemma window_length_six (dn : Z) :
  window_length_days (window_bounds dn) = 6.
Proof.
  unfold window_length_days, window_bounds. cbn [fst snd].
  replace (midnight dn - timedelta_days lookback)
    with (midnight dn + timedelta_days (- lookback))
    by (unfold timedelta_days; ring).
  rewrite !day_of_midnight_shift. unfold lookback, lookahead. ring.
Qed.

Lemma center_eq_some (x : option string) (c : string) :
  center_eq x (Some c) = true <-> x = Some c.
Proof.
  destruct x as [a|]; simpl; [|split; discriminate].
  rewrite String.eqb_eq. split; congruence.
Qed.

Lemma in_window_iff (dn : Z) (r : SaleRecord) :
  in_window (window_bounds dn) r = true <->
  midnight (dn - 3) <= sale_date r <= midnight (dn + 2).
Proof.
  unfold in_window. rewrite window_bounds_midnight. cbn [fst snd].
  rewrite andb_true_iff, !Z.leb_le. reflexivity.
Qed.

(** Claim C3: the window of a festival date runs from its midnight minus
    3 days to its midnight plus 2 days, both included, which covers
    [lookback + lookahead + 1 = 6] calendar days; both tabs keep exactly
    the records (of the selected center, if any) whose sale timestamp
    lies in that closed interval, and a sale dated at midnight of day
    [d] is kept iff [d] is one of the 6 days. *)
Theorem C3_window_closed_interval
    (raw : list SaleRecord) (selected_center : option string) (dn : Z) :
  window_bounds dn = (midnight (dn - lookback), midnight (dn + lookahead))
  /\ lookback = 3 /\ lookahead = 2
  /\ window_length_days (window_bounds dn) = lookback + lookahead + 1
  /\ lookback + lookahead + 1 = 6
  /\ (forall r,
        (In r (app_window_data selected_center raw dn) <->
         In r raw
         /\ match selected_center with
            | Some c => center_name r = Some c
            | None => True
            end
         /\ midnight (dn - 3) <= sale_date r <= midnight (dn + 2))
        /\
        (In r (filter (in_window (window_bounds dn))
                 (center_filtered_sales selected_center raw)) <->
         In r raw
         /\ match selected_center with
            | Some c => center_name r = Some c
            | None => True
            end
         /\ midnight (dn - 3) <= sale_date r <= midnight (dn + 2)))
  /\ (forall d, midnight (dn - 3) <= midnight d <= midnight (dn + 2) <->
                dn - 3 <= d <= dn + 2).
Proof.
  split; [apply window_bounds_midnight|].
  split; [reflexivity|]. split; [reflexivity|].
  split; [rewrite window_length_six; reflexivity|].
  split; [reflexivity|].
  split.
  - intros r. unfold app_window_data, center_filtered_sales.
    destruct selected_center as [c|]; split.
    + rewrite filter_In, andb_true_iff, center_eq_some, in_window_iff. tauto.
    + rewrite filter_In, filter_In, center_eq_some, in_window_iff. tauto.
    + rewrite filter_In, in_window_iff. tauto.
    + rewrite filter_In, in_window_iff. tauto.
  - intros d. unfold midnight, seconds_per_day. lia.
Qed.

Lemma in_append_if_sales p q : In p (append_if_sales q) -> p = q.
Proof.
  unfold append_if_sales. destruct (Qle_bool (pe_total q) 0); simpl;
    [tauto|intros [<-|[]]; reflexivity].
Qed.

Lemma mk_performance_avg festival year date center w :
  pe_avg (mk_performance festival year date center w)
  = (pe_total (mk_performance festival year date center w)
     / inject_Z (window_length_days (window_bounds date)))%Q.
Proof. rewrite window_length_six. reflexivity. Qed.

(** Claim C2: every row of the best-performing-holidays table, in both
    tabs, has as average daily sales its total window sales divided by
    the calendar length of its window, which is 6 whatever the records:
    the divisor does not depend on the days that had sales. *)
Theorem C2_average_divides_by_window_length
    (selected_years : list Z) (selected_center : option string)
    (raw : list SaleRecord) (rows : list HolidayRow) :
  (forall p, In p (app_festival_performance selected_years selected_center raw rows) ->
     pe_total p = app_window_sales selected_center raw (pe_date p)
     /\ pe_avg p = (pe_total p / inject_Z (window_length_days (window_bounds (pe_date p))))%Q
     /\ pe_avg p = (pe_total p / 6)%Q)
  /\
  (forall p, In p (tabs_festival_performance selected_years selected_center raw rows) ->
     pe_avg p = (pe_total p / inject_Z (window_length_days (window_bounds (pe_date p))))%Q
     /\ pe_avg p = (pe_total p / 6)%Q).
Proof.
  split.
  - intros p Hp. unfold app_festival_performance in Hp.
    apply in_flat_map in Hp as (festival & _ & Hp).
    apply in_flat_map in Hp as (h & _ & Hp).
    apply in_append_if_sales in Hp. subst p.
    split; [reflexivity|]. split; [apply mk_performance_avg|reflexivity].
  - intros p Hp. unfold tabs_festival_performance in Hp.
    apply in_flat_map in Hp as (festival & _ & Hp).
    apply in_flat_map in Hp as (h & _ & Hp).
    destruct (existsb (Z.eqb (hr_year h)) selected_years); [|destruct Hp].
    destruct selected_center as [c|].
    + apply in_append_if_sales in Hp. subst p.
      split; [apply mk_performance_avg|reflexivity].
    + apply in_flat_map in Hp as (center & _ & Hp).
      apply in_append_if_sales in Hp. subst p.
      split; [apply mk_performance_avg|reflexivity].
Qed.

(** *** Per-center breakdown *)
















(** *** The two implementations of the window total *)

Lemma filter_andb_filter {A} (p q : A -> bool) (l : list A) :
  filter (fun x => p x && q x) l = filter q (filter p l).
Proof.
  induction l as [|x t IH]; simpl; [reflexivity|].
  destruct (p x); simpl; [destruct (q x); rewrite IH; reflexivity|exact IH].
Qed.

Lemma sum_col_ext (col1 col2 : SaleRecord -> option Q) (l : list SaleRecord) :
  (forall r, In r l -> col1 r = col2 r) -> sum_col col1 l = sum_col col2 l.
Proof.
  induction l as [|r t IH]; intros E; simpl; [reflexivity|].
  rewrite (E r (or_introl eq_refl)), IH; [reflexivity|].
  intros r' Hr'. apply E. right. exact Hr'.
Qed.

(** Claim C10 (as amended): for a selected center, both tabs keep the
    same window records, but [app.py] sums [sales_collected_inc_tax] and
    [dashboard_tabs.py] sums [sales_collected_exc_tax] over them; the two
    totals agree when the two columns agree on every kept record. *)
Theorem C10_tabs_sum_different_columns
    (c : string) (raw : list SaleRecord) (dn : Z) :
  let kept := filter (in_window (window_bounds dn))
                (center_filtered_sales (Some c) raw) in
  app_window_data (Some c) raw dn = kept
  /\ app_window_sales (Some c) raw dn = sum_col sales_collected_inc_tax kept
  /\ tabs_center_window_sales (Some c) raw dn = sum_col sales_collected_exc_tax kept
  /\ ((forall r, In r kept ->
                 sales_collected_inc_tax r = sales_collected_exc_tax r) ->
      app_window_sales (Some c) raw dn = tabs_center_window_sales (Some c) raw dn).
Proof.
  intros kept.
  assert (Hk : app_window_data (Some c) raw dn = kept).
  { unfold app_window_data, kept, center_filtered_sales.
    apply (filter_andb_filter (fun r => center_eq (center_name r) (Some c))). }
  assert (Ha : app_window_sales (Some c) raw dn = sum_col sales_collected_inc_tax kept).
  { unfold app_window_sales, window_sales_of. rewrite Hk. reflexivity. }
  assert (Ht : tabs_center_window_sales (Some c) raw dn
               = sum_col sales_collected_exc_tax kept) by reflexivity.
  split; [exact Hk|]. split; [exact Ha|]. split; [exact Ht|].
  intros E. rewrite Ha, Ht. apply sum_col_ext. exact E.
Qed.

(** Claim C10, counterexample: one sale at the selected center on the
    festival date, 118 with tax and 100 without: the window total of
    [app.py] is 118, the one of [dashboard_tabs.py] is 100. *)
Lemma C10_inc_tax_vs_exc_tax :
  let raw := [sale_on diwali_2023 (Some "Andheri"%string) 118%Q 100%Q] in
  app_window_sales (Some "Andheri"%string) raw diwali_2023 = 118%Q
  /\ tabs_center_window_sales (Some "Andheri"%string) raw diwali_2023 = 100%Q
  /\ ~ (app_window_sales (Some "Andheri"%string) raw diwali_2023
        == tabs_center_window_sales (Some "Andheri"%string) raw diwali_2023)%Q.
Proof.
  split; [vm_compute; reflexivity|]. split; [vm_compute; reflexivity|].
  vm_compute. discriminate.
Qed.

End HolidayFacts.

Module GrowthFacts.

Import Growth.

(** Claim C6 (as amended): when the prior year's value is 0, the
    growth column gets the IEEE result of the division instead of a
    marker: [+inf] for a positive current value, [-inf] for a negative
    one and NaN for 0; and every adjacent pair of year columns gets a
    value, so nothing is raised. *)
Theorem C6_zero_prior_gives_inf_or_nan (cur : Q) (row : list (Z * xfloat)) :
  growth (Fin 0) (Fin cur)
  = (if is_zero cur then NaN else Inf (is_neg cur))
  /\ List.length (growth_columns row) = pred (List.length row).
Proof.
  split.
  - unfold growth, fdiv. replace (is_zero 0) with true by reflexivity.
    destruct (is_zero cur); [reflexivity|].
    unfold fsub, fmul. replace (is_zero 100) with false by reflexivity.
    replace (is_neg 100) with false by reflexivity.
    rewrite xorb_false_r. reflexivity.
  - induction row as [|[y v] t IH]; [reflexivity|].
    destruct t as [|[y' v'] t']; [reflexivity|].
    cbn [growth_columns List.length] in *. rewrite IH. reflexivity.
Qed.

(** Claim C6, counterexample: the series 2023: 0, 2024: 150 gets the
    growth value [+inf] (rendered ["inf%"]), not a marker; the series
    2023: 100, 2024: 150 gets 50. *)
Lemma C6_growth_from_zero_is_infinite :
  growth_columns [(2023%Z, Fin 0); (2024%Z, Fin 150)]
  = [(2023%Z, 2024%Z, Inf false)]
  /\ exists q, growth_columns [(2023%Z, Fin 100); (2024%Z, Fin 150)]
               = [(2023%Z, 2024%Z, Fin q)] /\ (q == 50)%Q.
Proof.
  split; [vm_compute; reflexivity|].
  eexists. split; [vm_compute; reflexivity|]. vm_compute. reflexivity.
Qed.

End GrowthFacts.

Module ProjectionFacts.

Import Projection Floats.
Local Open Scope float_scope.
Local Set Warnings "-inexact-float".

(** Claim C7 (as amended): the projected value is the binary64 product
    of the latest value by 1.1, the same as the latest value times
    [(1 + 0.10)] computed in binary64; for a latest value of 100 it is
    110.00000000000001, not 110.0. *)
Theorem C7_project_is_binary64_product (latest : float) :
  project latest = project_with_rate latest 0.10
  /\ project 100 = 110.00000000000001
  /\ project 100 <> 110.
Proof.
  split; [|split].
  - unfold project, project_with_rate.
    replace (1 + 0.10) with 1.10 by reflexivity. reflexivity.
  - reflexivity.
  - intros H.
    assert (E : PrimFloat.eqb (project 100) 110 = false) by reflexivity.
    rewrite H in E. discriminate E.
Qed.

(** Claim C7, counterexample: [project(100, 0.10)] is not exactly 110.0. *)
Lemma C7_project_100_not_110 : project_with_rate 100 0.10 <> 110.
Proof.
  intros H.
  assert (E : PrimFloat.eqb (project_with_rate 100 0.10) 110 = false)
    by reflexivity.
  rewrite H in E. discriminate E.
Qed.

End ProjectionFacts.

Module RankingFacts.

Import Sales Holidays Samples.

Definition by_total_desc (p q : Performance) : Prop := (pe_total q <= pe_total p)%Q.

Lemma sorted_weaken {A} (R R' : A -> A -> Prop) (l : list A) :
  (forall x y, R x y -> R' x y) -> Sorted R l -> Sorted R' l.
Proof.
  intros HR Hs. induction Hs as [|x l Hs IH Hhd]; constructor; [exact IH|].
  destruct Hhd; constructor. apply HR. assumption.
Qed.

Lemma gate_is_filter (aggregates : list Performance) :
  flat_map append_if_sales aggregates
  = filter (fun p => negb (Qle_bool (pe_total p) 0)) aggregates.
Proof.
  induction aggregates as [|p t IH]; [reflexivity|].
  cbn [flat_map filter]. rewrite IH. unfold append_if_sales.
  destruct (Qle_bool (pe_total p) 0); reflexivity.
Qed.

Section Ranking.

Variable sort_values : list Performance -> list Performance.
Hypothesis sort_values_perm : forall l, Permutation l (sort_values l).
Hypothesis sort_values_desc : forall l, Sorted by_total_desc (sort_values l).

(** Claim C4 (as amended): the ranked rows are exactly the aggregates
    whose total window sales are strictly positive (a zero or a negative
    total is left out), each as many times as it occurs, ordered by total
    sales, non-increasing; which of two rows with equal totals comes
    first is left to pandas' sort, whose default is not stable. *)
Theorem C4_rank_keeps_positive_totals_descending (aggregates : list Performance) :
  Permutation (rank_windows sort_values aggregates)
              (filter (fun p => negb (Qle_bool (pe_total p) 0)) aggregates)
  /\ (forall p, In p (rank_windows sort_values aggregates) <->
                In p aggregates /\ (0 < pe_total p)%Q)
  /\ Sorted by_total_desc (rank_windows sort_values aggregates).
Proof.
  assert (Hp : Permutation (rank_windows sort_values aggregates)
                 (filter (fun p => negb (Qle_bool (pe_total p) 0)) aggregates)).
  { unfold rank_windows. rewrite <- gate_is_filter.
    symmetry. apply sort_values_perm. }
  split; [exact Hp|]. split.
  - intros p. split.
    + intros Hin. apply (Permutation_in _ Hp) in Hin.
      apply filter_In in Hin as [Hin Hpos]. split; [exact Hin|].
      apply Qnot_le_lt. intros Hle. apply Qle_bool_iff in Hle.
      rewrite Hle in Hpos. discriminate.
    + intros [Hin Hpos]. apply (Permutation_in _ (Permutation_sym Hp)).
      apply filter_In. split; [exact Hin|].
      destruct (Qle_bool (pe_total p) 0) eqn:E; [|reflexivity].
      apply Qle_bool_iff in E. exfalso. apply (Qlt_not_le _ _ Hpos E).
  - unfold rank_windows. apply sort_values_desc.
Qed.

End Ranking.

(** Witness of [C4_rank_keeps_positive_totals_descending], with merge
    sort as the sort: of the totals 300, 0, -50 and 500, the rows of
    300 and 500 are ranked. *)
Lemma C4_witness :
  let a300 := mk_performance "Diwali" 2023%Z diwali_2023 (Some "All Centers"%string) 300 in
  let a0 := mk_performance "Holi" 2023%Z diwali_2023 (Some "All Centers"%string) 0 in
  let aneg := mk_performance "Onam" 2023%Z diwali_2023 (Some "All Centers"%string) (-50) in
  let a500 := mk_performance "Pongal" 2023%Z diwali_2023 (Some "All Centers"%string) 500 in
  Permutation (rank_windows PerformanceSort.sort [a300; a0; aneg; a500]) [a300; a500]
  /\ Sorted by_total_desc (rank_windows PerformanceSort.sort [a300; a0; aneg; a500]).
Proof.
  intros a300 a0 aneg a500.
  assert (Hperm : forall l, Permutation l (PerformanceSort.sort l))
    by exact PerformanceSort.Permuted_sort.
  assert (Hsort : forall l, Sorted by_total_desc (PerformanceSort.sort l)).
  { intros l. apply (sorted_weaken _ _ _ (fun x y H => proj1 (Qle_bool_iff _ _) H)).
    apply PerformanceSort.Sorted_sort. }
  destruct (C4_rank_keeps_positive_totals_descending PerformanceSort.sort Hperm Hsort
              [a300; a0; aneg; a500]) as (Hp & _ & Hs).
  split; [exact Hp|exact Hs].
Defined.

(** Claim C4, counterexample: an aggregate whose window total is -50,
    not 0, is still left out: the window sale of -50 around Diwali 2023
    produces no row of [festival_performance], so nothing is ranked. *)
Lemma C4_negative_total_excluded :
  let raw := [sale_on diwali_2023 (Some "Andheri"%string) (-50) (-50)] in
  let row := {| hr_festival := "Diwali"; hr_date := diwali_2023;
                hr_year := 2023; hr_mtd := -50;
                hr_center := NoCenterKey |} in
  app_window_sales None raw diwali_2023 = (-50)%Q
  /\ app_festival_performance [2023%Z] None raw [row] = []
  /\ rank_windows PerformanceSort.sort
       [mk_performance "Diwali" 2023%Z diwali_2023 (Some "All Centers"%string)
          (app_window_sales None raw diwali_2023)] = [].
Proof. vm_compute. split; [reflexivity|split; reflexivity]. Qed.

End RankingFacts.

Module FormatFacts.

Import Format.
Local Open Scope Z_scope.

Lemma list_snoc2_ind {A} (P : list A -> Prop) :
  P [] -> (forall x, P [x]) -> (forall p a b, P p -> P (p ++ [a; b])) ->
  forall l, P l.
Proof.
  intros H0 H1 H2 l. remember (List.length l) as n eqn:E. revert l E.
  induction n as [n IH] using lt_wf_ind. intros l E.
  destruct (rev l) as [|b [|a p]] eqn:R;
    apply (f_equal (@rev A)) in R; rewrite rev_involutive in R; subst l.
  - exact H0.
  - exact (H1 b).
  - simpl. rewrite <- app_assoc. apply H2. eapply IH; [|reflexivity].
    subst n. rewrite !length_rev. simpl. lia.
Qed.

Lemma group_pairs_snoc2 p a b :
  group_pairs (p ++ [a; b]) = group_pairs p ++ [comma; a; b].
Proof.
  unfold group_pairs. rewrite rev_app_distr. simpl.
  rewrite <- !app_assoc. reflexivity.
Qed.

Lemma firstn_add_skipn {A} (k m : nat) (l : list A) :
  firstn (k + m) l = firstn k l ++ firstn m (skipn k l).
Proof.
  revert l. induction k as [|k IH]; intros l; [reflexivity|].
  destruct l as [|x l]; simpl; [destruct m; reflexivity|]. f_equal. apply IH.
Qed.

(** The loop of [format_with_indian_commas], run over the first [L]
    characters of [rest]. *)
Lemma loop_group_pairs (L : nat) : forall rest acc, (L <= List.length rest)%nat ->
  fold_left (group_step rest) (range_down2 L) acc
  = group_pairs (firstn L rest) ++ acc.
Proof.
  induction L as [L IH] using lt_wf_ind. intros rest acc HL.
  destruct L as [|[|k]].
  - reflexivity.
  - destruct rest as [|x t]; simpl in HL; [lia|]. reflexivity.
  - change (range_down2 (S (S k))) with (S k :: range_down2 k).
    cbn [fold_left]. rewrite IH by lia.
    unfold group_step. cbn [Nat.eqb].
    replace (Nat.max (S k - 1) 0) with k by lia.
    unfold slice. replace (S k + 1 - k)%nat with 2%nat by lia.
    replace (S (S k)) with (k + 2)%nat by lia.
    rewrite firstn_add_skipn.
    assert (Hs : (2 <= List.length (skipn k rest))%nat) by (rewrite length_skipn; lia).
    destruct (skipn k rest) as [|a [|b u]]; simpl in Hs; try lia.
    simpl. rewrite group_pairs_snoc2, <- app_assoc. reflexivity.
Qed.

(** [group_digits] of a text longer than 3 characters. *)
Lemma group_digits_long (s : list ascii) : (3 < List.length s)%nat ->
  group_digits s
  = strip_comma (group_pairs (firstn (List.length s - 3) s) ++
                 comma :: skipn (List.length s - 3) s).
Proof.
  intros H. unfold group_digits.
  assert (E : Nat.ltb 3 (List.length s) = true) by (apply Nat.ltb_lt; exact H).
  rewrite E. cbv zeta.
  rewrite loop_group_pairs by lia. rewrite firstn_all, app_nil_r.
  destruct (group_pairs (firstn (List.length s - 3) s)) as [|c r] eqn:G.
  - exfalso. assert (Hl : List.length (group_pairs (firstn (List.length s - 3) s)) = 0%nat)
      by (rewrite G; reflexivity).
    unfold group_pairs in Hl. rewrite length_rev in Hl.
    destruct (rev (firstn (List.length s - 3) s)) as [|x y] eqn:R.
    + apply (f_equal (@List.length ascii)) in R.
      rewrite length_rev, length_firstn in R. simpl in R. rewrite Nat.min_l in R by lia. lia.
    + destruct y as [|z w]; simpl in Hl; lia.
  - reflexivity.
Qed.

Lemma remove_commas_app l1 l2 :
  remove_commas (l1 ++ l2) = remove_commas l1 ++ remove_commas l2.
Proof. apply filter_app. Qed.

Lemma remove_commas_group_pairs l : remove_commas (group_pairs l) = remove_commas l.
Proof.
  induction l as [|x|p a b IH] using list_snoc2_ind; [reflexivity|reflexivity|].
  rewrite group_pairs_snoc2, !remove_commas_app, IH. reflexivity.
Qed.

Lemma remove_commas_strip l : remove_commas (strip_comma l) = remove_commas l.
Proof.
  destruct l as [|c r]; [reflexivity|]. unfold strip_comma.
  destruct (Ascii.eqb c comma) eqn:E; [|reflexivity].
  unfold remove_commas at 2. simpl. rewrite E. reflexivity.
Qed.

(** Commas removed, [group_digits] gives back its input without commas. *)
Lemma remove_commas_group_digits s :
  remove_commas (group_digits s) = remove_commas s.
Proof.
  destruct (Nat.ltb 3 (List.length s)) eqn:E.
  - apply Nat.ltb_lt in E. rewrite group_digits_long by exact E.
    rewrite remove_commas_strip, remove_commas_app, remove_commas_group_pairs.
    simpl. rewrite <- remove_commas_app, firstn_skipn. reflexivity.
  - unfold group_digits. rewrite E. reflexivity.
Qed.

Lemma digit_char_not_comma d : 0 <= d < 10 -> Ascii.eqb (digit_char d) comma = false.
Proof.
  intros Hd.
  assert (d = 0 \/ d = 1 \/ d = 2 \/ d = 3 \/ d = 4 \/ d = 5 \/ d = 6 \/
          d = 7 \/ d = 8 \/ d = 9) as Hc by lia.
  repeat destruct Hc as [->|Hc]; try reflexivity; subst; reflexivity.
Qed.

Lemma str_nat_fuel_digits f : forall n acc c,
  In c (str_nat_fuel f n acc) -> In c acc \/ is_digit_char c.
Proof.
  induction f as [|f IH]; intros n acc c Hin; simpl in Hin.
  - destruct Hin as [<-|Hin]; [right|left; exact Hin].
    exists (n mod 10). split; [apply Z.mod_pos_bound; lia|reflexivity].
  - destruct (n <? 10).
    + destruct Hin as [<-|Hin]; [right|left; exact Hin].
      exists (n mod 10). split; [apply Z.mod_pos_bound; lia|reflexivity].
    + destruct (IH _ _ _ Hin) as [[<-|H]|H]; auto.
      right. exists (n mod 10). split; [apply Z.mod_pos_bound; lia|reflexivity].
Qed.

Lemma str_nat_digits n c : In c (str_nat n) -> is_digit_char c.
Proof.
  intros Hin. destruct (str_nat_fuel_digits _ _ _ _ Hin) as [[]|H]. exact H.
Qed.

Lemma remove_commas_id l : (forall c, In c l -> Ascii.eqb c comma = false) ->
  remove_commas l = l.
Proof.
  induction l as [|c t IH]; intros H; [reflexivity|]. simpl.
  rewrite (H c (or_introl eq_refl)). simpl. f_equal.
  apply IH. intros x Hx. apply H. right. exact Hx.
Qed.

Lemma str_int_no_comma n c : In c (str_int n) -> Ascii.eqb c comma = false.
Proof.
  unfold str_int. destruct (n <? 0).
  - intros [<-|Hin]; [reflexivity|].
    destruct (str_nat_digits _ _ Hin) as (d & Hd & ->).
    apply digit_char_not_comma; exact Hd.
  - intros Hin. destruct (str_nat_digits _ _ Hin) as (d & Hd & ->).
    apply digit_char_not_comma; exact Hd.
Qed.

(** X1: commas removed, the text of [format_with_indian_commas num] is
    [str(int(round(num)))]. *)
Theorem format_with_indian_commas_remove_commas (num : Q) :
  remove_commas (format_with_indian_commas num) = str_int (py_round num).
Proof.
  unfold format_with_indian_commas.
  rewrite remove_commas_group_digits. apply remove_commas_id.
  apply str_int_no_comma.
Qed.


Lemma group_pairs_cons c r :
  group_pairs (c :: r) =
  if Nat.even (List.length r) then c :: group_pairs r
  else comma :: c :: group_pairs r.
Proof.
  revert c. induction r as [|x|p a b IH] using list_snoc2_ind; intros c.
  - reflexivity.
  - reflexivity.
  - change (c :: p ++ [a; b]) with ((c :: p) ++ [a; b]).
    rewrite !group_pairs_snoc2, IH, length_app.
    replace (List.length p + List.length [a; b])%nat
      with (S (S (List.length p))) by (simpl; lia).
    cbn [Nat.even]. destruct (Nat.even (List.length p)); reflexivity.
Qed.

(** The loop's text: an optional leading comma, a first group of one or
    two characters, then groups of two, each after a comma. *)
Lemma group_pairs_shape r : (1 <= List.length r)%nat ->
  exists first mids,
    group_pairs r = (if Nat.even (List.length r) then [comma] else [])
                    ++ first ++ List.concat (map (cons comma) mids) /\
    List.length first = (if Nat.even (List.length r) then 2 else 1)%nat /\
    Forall (fun g => List.length g = 2%nat) mids /\
    r = first ++ List.concat mids.
Proof.
  induction r as [|x|p a b IH] using list_snoc2_ind; intros Hl.
  - simpl in Hl; lia.
  - exists [x], []. repeat split; auto.
  - destruct p as [|y p'].
    + exists [a; b], []. repeat split; auto.
    + destruct IH as (first & mids & Hg & Hf & Hm & Hr); [simpl; lia|].
      exists first, (mids ++ [[a; b]]).
      assert (Ev : Nat.even (List.length ((y :: p') ++ [a; b]))
                   = Nat.even (List.length (y :: p'))).
      { rewrite length_app.
        replace (List.length (y :: p') + List.length [a; b])%nat
          with (S (S (List.length (y :: p')))) by (simpl; lia).
        reflexivity. }
      rewrite Ev, group_pairs_snoc2, Hg, map_app, concat_app, concat_app.
      repeat split.
      * simpl. rewrite <- !app_assoc. reflexivity.
      * exact Hf.
      * apply Forall_app. split; [exact Hm|]. constructor; [reflexivity|constructor].
      * rewrite Hr. simpl. rewrite <- !app_assoc. reflexivity.
Qed.

Lemma in_firstn_in {A} n (l : list A) x : In x (firstn n l) -> In x l.
Proof.
  intros H. rewrite <- (firstn_skipn n l). apply in_or_app. left. exact H.
Qed.

(** X2: [format_with_indian_commas] writes the Indian grouping of
    [str(int(round(num)))]: a text of at most 3 characters is left as it
    is; a longer one is cut into a first group of 1 or 2 characters,
    groups of 2 and a last group of 3, joined by commas. *)
Theorem format_with_indian_commas_groups (num : Q) :
  let s := str_int (py_round num) in
  (List.length s <= 3 /\ format_with_indian_commas num = s)%nat \/
  exists first mids last3,
    format_with_indian_commas num
      = first ++ List.concat (map (cons comma) mids) ++ comma :: last3 /\
    (1 <= List.length first <= 2)%nat /\
    Forall (fun g => List.length g = 2%nat) mids /\
    List.length last3 = 3%nat /\
    s = first ++ List.concat mids ++ last3.
Proof.
  cbv zeta. unfold format_with_indian_commas.
  set (s := str_int (py_round num)).
  destruct (Nat.ltb 3 (List.length s)) eqn:E.
  - right. apply Nat.ltb_lt in E. rewrite group_digits_long by exact E.
    set (rest := firstn (List.length s - 3) s).
    assert (Hrl : List.length rest = (List.length s - 3)%nat)
      by (unfold rest; rewrite length_firstn; lia).
    destruct (group_pairs_shape rest) as (first & mids & Hg & Hf & Hm & Hr);
      [lia|].
    exists first, mids, (skipn (List.length s - 3) s).
    assert (Hs : s = first ++ List.concat mids ++ skipn (List.length s - 3) s).
    { rewrite app_assoc, <- Hr. unfold rest. symmetry. apply firstn_skipn. }
    split; [|split; [|split; [exact Hm|split; [rewrite length_skipn; lia|exact Hs]]]].
    + rewrite Hg. destruct (Nat.even (List.length rest)).
      * simpl. rewrite <- app_assoc. reflexivity.
      * simpl. destruct first as [|c f']; [simpl in Hf; lia|].
        assert (Hc : Ascii.eqb c comma = false).
        { apply (str_int_no_comma (py_round num)). fold s.
          apply (in_firstn_in (List.length s - 3)). fold rest. rewrite Hr.
          left. reflexivity. }
        cbn [app strip_comma]. rewrite Hc. rewrite <- app_assoc. reflexivity.
    + rewrite Hf. destruct (Nat.even (List.length rest)); lia.
  - left. split; [apply Nat.ltb_ge; exact E|].
    unfold group_digits. rewrite E. reflexivity.
Qed.

Lemma str_nat_fuel_app f : forall n acc,
  str_nat_fuel f n acc = str_nat_fuel f n [] ++ acc.
Proof.
  induction f as [|f IH]; intros n acc; simpl; [reflexivity|].
  destruct (n <? 10); [reflexivity|].
  rewrite IH, (IH _ [digit_char (n mod 10)]), <- app_assoc. reflexivity.
Qed.

Lemma str_nat_cons n : exists c t, str_nat n = c :: t /\ is_digit_char c.
Proof.
  unfold str_nat. destruct (str_nat_fuel (Z.to_nat (Z.log2 n)) n []) as [|c t] eqn:E.
  - exfalso. destruct (Z.to_nat (Z.log2 n)) as [|f]; simpl in E;
      [discriminate|].
    destruct (n <? 10); [discriminate|].
    rewrite str_nat_fuel_app in E. destruct (str_nat_fuel f (n / 10) []);
      discriminate.
  - exists c, t. split; [reflexivity|]. apply (str_nat_digits n).
    unfold str_nat. rewrite E. left. reflexivity.
Qed.

(** X3: a negative amount is written as ['-'] and the grouping of its
    absolute value; when that value has an odd number of digits, at
    least 3, a stray comma follows the minus sign ([-12345] gives
    [-,12,345]). *)
Theorem format_with_indian_commas_negative (num : Q) :
  py_round num < 0 ->
  let digits := str_nat (- py_round num) in
  format_with_indian_commas num =
  minus :: ((if Nat.odd (List.length digits) && Nat.leb 3 (List.length digits)
             then [comma] else []) ++ group_digits digits).
Proof.
  intros Hneg. cbv zeta. unfold format_with_indian_commas, str_int.
  assert (N : (py_round num <? 0) = true) by (apply Z.ltb_lt; exact Hneg).
  rewrite N. set (d := str_nat (- py_round num)).
  assert (Dd : forall c, In c d -> Ascii.eqb c comma = false).
  { intros c Hc. destruct (str_nat_digits _ _ Hc) as (x & Hx & ->).
    apply digit_char_not_comma; exact Hx. }
  destruct (Nat.leb 3 (List.length d)) eqn:K.
  - apply Nat.leb_le in K.
    rewrite (group_digits_long (minus :: d)) by (simpl; lia).
    cbn [List.length]. replace (S (List.length d) - 3)%nat
      with (S (List.length d - 3)) by lia.
    cbn [firstn skipn]. rewrite group_pairs_cons, length_firstn.
    rewrite Nat.min_l by lia.
    destruct (Nat.eq_dec (List.length d) 3) as [E3|E3].
    + rewrite E3. cbn [Nat.odd Nat.even negb andb firstn].
      unfold group_digits. rewrite E3. cbn [Nat.ltb Nat.leb].
      replace (3 - 3)%nat with 0%nat by reflexivity. reflexivity.
    + rewrite (group_digits_long d) by lia.
      remember (firstn (List.length d - 3) d) as r eqn:Rdef.
      assert (Hrl : List.length r = (List.length d - 3)%nat)
        by (subst r; rewrite length_firstn; lia).
      destruct r as [|c0 r0]; [simpl in Hrl; lia|].
      assert (Hc0 : Ascii.eqb c0 comma = false).
      { apply Dd. apply (in_firstn_in (List.length d - 3)). rewrite <- Rdef.
        left. reflexivity. }
      simpl in Hrl.
      assert (Hodd : Nat.odd (List.length d) = negb (Nat.even (List.length r0))).
      { replace (List.length d) with (S (S (S (S (List.length r0))))) by lia.
        reflexivity. }
      rewrite Hodd, <- Hrl, Nat.even_succ, group_pairs_cons. unfold Nat.odd.
      destruct (Nat.even (List.length r0)) eqn:Ev;
        cbn [negb andb app strip_comma]; rewrite ?Hc0; reflexivity.
  - apply Nat.leb_gt in K.
    unfold group_digits. cbn [List.length].
    assert (A1 : Nat.ltb 3 (S (List.length d)) = false) by (apply Nat.ltb_ge; lia).
    assert (A2 : Nat.ltb 3 (List.length d) = false) by (apply Nat.ltb_ge; lia).
    rewrite A1, A2. rewrite andb_false_r. reflexivity.
Qed.


(** [round] gives 0 exactly on [[-1/2, 1/2]]. *)
Lemma py_round_zero_iff (q : Q) : py_round q = 0 <-> (-(1#2) <= q <= 1#2)%Q.
Proof.
  destruct q as [a b]. unfold py_round. cbn [Qfloor].
  pose proof (Z.div_mod a (Z.pos b) ltac:(lia)) as Ha.
  pose proof (Z.mod_pos_bound a (Z.pos b) ltac:(lia)) as Hr.
  remember (a / Z.pos b) as f eqn:Ef. remember (a mod Z.pos b) as r eqn:Er.
  assert (E1 : Qeq_bool ((a # b) - inject_Z f) (1 # 2) = (2 * r =? Z.pos b)).
  { apply Bool.eq_iff_eq_true. rewrite Qeq_bool_iff, Z.eqb_eq.
    unfold Qeq, Qminus, Qplus, Qopp, inject_Z. cbn [Qnum Qden].
    rewrite ?Pos.mul_1_r. split; intros; nia. }
  assert (E2 : Qle_bool ((a # b) - inject_Z f) (1 # 2) = (2 * r <=? Z.pos b)).
  { apply Bool.eq_iff_eq_true. rewrite Qle_bool_iff, Z.leb_le.
    unfold Qle, Qminus, Qplus, Qopp, inject_Z. cbn [Qnum Qden].
    rewrite ?Pos.mul_1_r. split; intros; nia. }
  rewrite E1, E2. change (- (1 # 2))%Q with ((-1) # 2)%Q.
  unfold Qle. cbn [Qnum Qden].
  split.
  - intros H.
    destruct (2 * r =? Z.pos b) eqn:X; [apply Z.eqb_eq in X|apply Z.eqb_neq in X].
    + destruct (Z.even f); split; nia.
    + destruct (2 * r <=? Z.pos b) eqn:Y; [apply Z.leb_le in Y|apply Z.leb_gt in Y];
        split; nia.
  - intros [H1 H2].
    assert (Hf : f = 0 \/ f = -1) by nia.
    destruct Hf as [->| ->].
    + destruct (2 * r =? Z.pos b) eqn:X; [reflexivity|].
      apply Z.eqb_neq in X.
      destruct (2 * r <=? Z.pos b) eqn:Y; [reflexivity|].
      apply Z.leb_gt in Y. nia.
    + destruct (2 * r =? Z.pos b) eqn:X; [reflexivity|].
      apply Z.eqb_neq in X.
      destruct (2 * r <=? Z.pos b) eqn:Y; [|reflexivity].
      apply Z.leb_le in Y. nia.
Qed.

Lemma str_nat_fuel_length f : forall n acc,
  (S (List.length acc) <= List.length (str_nat_fuel f n acc))%nat.
Proof.
  induction f as [|f IH]; intros n acc; simpl; [lia|].
  destruct (n <? 10); simpl; [lia|].
  specialize (IH (n / 10) (digit_char (n mod 10) :: acc)). simpl in IH. lia.
Qed.

Lemma digit_char_zero d : 0 <= d < 10 -> digit_char d = "0"%char -> d = 0.
Proof.
  intros Hd.
  assert (d = 0 \/ d = 1 \/ d = 2 \/ d = 3 \/ d = 4 \/ d = 5 \/ d = 6 \/
          d = 7 \/ d = 8 \/ d = 9) as Hc by lia.
  repeat destruct Hc as [->|Hc]; try (intros; reflexivity);
    try (subst; intros H; discriminate H); discriminate.
Qed.

Lemma str_int_zero n : str_int n = ["0"%char] -> n = 0.
Proof.
  unfold str_int. destruct (n <? 0) eqn:N; [intros H; discriminate H|].
  apply Z.ltb_ge in N. unfold str_nat.
  destruct (Z_lt_le_dec n 10) as [Hn|Hn].
  - assert (Hd : forall f, str_nat_fuel f n [] = [digit_char n]).
    { intros [|f]; simpl; [rewrite Z.mod_small by lia; reflexivity|].
      destruct (Z.ltb_spec n 10); [|lia]. rewrite Z.mod_small by lia.
      reflexivity. }
    rewrite Hd. intros H. injection H as H. apply digit_char_zero; [lia|exact H].
  - assert (Hl : (3 <= Z.to_nat (Z.log2 n))%nat).
    { assert (3 <= Z.log2 n); [|lia].
      replace 3 with (Z.log2 8) by reflexivity. apply Z.log2_le_mono. lia. }
    destruct (Z.to_nat (Z.log2 n)) as [|f]; [lia|]. simpl.
    destruct (Z.ltb_spec n 10); [lia|].
    intros Hs. pose proof (str_nat_fuel_length f (n / 10) [digit_char (n mod 10)]) as L.
    rewrite Hs in L. simpl in L. lia.
Qed.

(** X4: [format_indian_money] writes ["₹0"] exactly for NaN and for the
    amounts that round to 0, [-0.5 <= amount <= 0.5]; every other amount
    gives another text. *)
Theorem format_indian_money_zero (amount : option Q) :
  format_indian_money amount = rupee ++ ["0"%char] <->
  match amount with
  | None => True
  | Some q => (-(1#2) <= q <= 1#2)%Q
  end.
Proof.
  destruct amount as [q|]; [|simpl; tauto]. unfold format_indian_money.
  destruct (Qeq_bool q 0) eqn:Z0.
  - apply Qeq_bool_iff in Z0. split; [intros _|reflexivity].
    rewrite Z0. split; unfold Qle; simpl; lia.
  - rewrite <- py_round_zero_iff. split.
    + intros H. apply app_inv_head in H.
      apply (f_equal remove_commas) in H.
      rewrite format_with_indian_commas_remove_commas in H.
      apply str_int_zero. exact H.
    + intros H. unfold format_with_indian_commas. rewrite H. reflexivity.
Qed.


Lemma text_cons c l : text (c :: l) = String c (text l).
Proof. reflexivity. Qed.

Lemma text_app l1 l2 : text (l1 ++ l2) = (text l1 ++ text l2)%string.
Proof. induction l1 as [|c t IH]; simpl; [reflexivity|]. f_equal. exact IH. Qed.

Lemma remove_all_fuel_skip (p : ascii) (pt : string) f : forall s,
  (forall c, In c (list_ascii_of_string s) -> c <> p) ->
  Loader.remove_all_fuel f (String p pt) s = s.
Proof.
  induction f as [|f IH]; intros s H; [reflexivity|].
  destruct s as [|c t]; [reflexivity|]. simpl.
  destruct (ascii_dec p c) as [->|Hne].
  - exfalso. apply (H c); [left|]; reflexivity.
  - f_equal. apply IH. intros x Hx. apply H. right. exact Hx.
Qed.

Lemma substring_0_all t : forall m, (String.length t <= m)%nat ->
  substring 0 m t = t.
Proof.
  induction t as [|c t IH]; intros [|m] Hm; simpl in *; try reflexivity; [lia|].
  f_equal. apply IH. lia.
Qed.

Lemma prefix_comma c t : String.prefix ","%string (String c t) = Ascii.eqb c comma.
Proof.
  cbn [String.prefix]. destruct (ascii_dec "," c) as [E|H]; [subst c; destruct t; reflexivity|].
  symmetry. apply Ascii.eqb_neq. intros ->. apply H. reflexivity.
Qed.

Lemma remove_all_comma f : forall s, (String.length s <= f)%nat ->
  Loader.remove_all_fuel f ","%string s
  = text (remove_commas (list_ascii_of_string s)).
Proof.
  induction f as [|f IH]; intros s Hs.
  - destruct s; [reflexivity|simpl in Hs; lia].
  - destruct s as [|c t]; [reflexivity|]. simpl in Hs.
    cbn [Loader.remove_all_fuel]. rewrite prefix_comma.
    unfold remove_commas. cbn [list_ascii_of_string filter].
    destruct (Ascii.eqb c comma) eqn:E; cbn [negb].
    + cbn [String.length substring]. rewrite substring_0_all by lia.
      apply IH. lia.
    + rewrite IH by lia. reflexivity.
Qed.

(** The loader's [clean_text] on a text with no ['$'] and no byte of the
    mis-decoded rupee sign only removes commas. *)
Lemma clean_text_text l :
  (forall c, In c l -> c <> "$"%char /\ c <> Ascii.ascii_of_nat 195) ->
  Loader.clean_text (text l) = text (remove_commas l).
Proof.
  intros H. unfold Loader.clean_text, Loader.remove_all.
  rewrite (remove_all_fuel_skip "$"%char "").
  2:{ unfold text. rewrite list_ascii_of_string_of_list_ascii.
      intros c Hc. apply H. exact Hc. }
  unfold Loader.rupee_mojibake. rewrite (remove_all_fuel_skip (Ascii.ascii_of_nat 195)).
  2:{ unfold text. rewrite list_ascii_of_string_of_list_ascii.
      intros c Hc. apply H. exact Hc. }
  rewrite remove_all_comma by lia. unfold text.
  rewrite list_ascii_of_string_of_list_ascii. reflexivity.
Qed.

Lemma in_group_digits s c : In c (group_digits s) -> c = comma \/ In c s.
Proof.
  intros H. destruct (Ascii.eqb c comma) eqn:E.
  - left. apply Ascii.eqb_eq. exact E.
  - right. assert (Hr : In c (remove_commas (group_digits s))).
    { apply filter_In. rewrite E. split; [exact H|reflexivity]. }
    rewrite remove_commas_group_digits in Hr. apply filter_In in Hr. apply Hr.
Qed.

(** Every byte of [format_with_indian_commas] is a digit, a comma or a
    minus sign. *)
Lemma format_with_indian_commas_chars q c :
  In c (format_with_indian_commas q) ->
  c = comma \/ c = minus \/ is_digit_char c.
Proof.
  unfold format_with_indian_commas. intros H.
  destruct (in_group_digits _ _ H) as [->|Hs]; [left; reflexivity|right].
  unfold str_int in Hs. destruct (py_round q <? 0).
  - destruct Hs as [<-|Hs]; [left; reflexivity|right].
    exact (str_nat_digits _ _ Hs).
  - right. exact (str_nat_digits _ _ Hs).
Qed.

Lemma digit_char_cases d : 0 <= d < 10 ->
  d = 0 \/ d = 1 \/ d = 2 \/ d = 3 \/ d = 4 \/ d = 5 \/ d = 6 \/
  d = 7 \/ d = 8 \/ d = 9.
Proof. lia. Qed.

Lemma digit_val_char d : 0 <= d < 10 -> Loader.digit_val (digit_char d) = Some d.
Proof.
  intros Hd. destruct (digit_char_cases d Hd) as [->|[->|[->|[->|[->|[->|[->|[->|[->| ->]]]]]]]]];
    reflexivity.
Qed.

Lemma digit_char_props d : 0 <= d < 10 ->
  digit_char d <> "$"%char /\ digit_char d <> Ascii.ascii_of_nat 195 /\
  digit_char d <> "."%char /\ digit_char d <> "-"%char /\
  digit_char d <> "+"%char /\ Loader.digit_val (digit_char d) <> None.
Proof.
  intros Hd. destruct (digit_char_cases d Hd) as [->|[->|[->|[->|[->|[->|[->|[->|[->| ->]]]]]]]]];
    repeat split; discriminate.
Qed.


Lemma digits_value_app acc s1 s2 :
  Loader.digits_value acc (s1 ++ s2)
  = match Loader.digits_value acc s1 with
    | Some v => Loader.digits_value v s2
    | None => None
    end.
Proof.
  revert acc. induction s1 as [|c t IH]; intros acc; simpl; [reflexivity|].
  destruct (Loader.digit_val c); [apply IH|reflexivity].
Qed.

Lemma digits_value_single acc d : 0 <= d < 10 ->
  Loader.digits_value acc (text [digit_char d]) = Some (acc * 10 + d).
Proof.
  intros Hd. rewrite text_cons. change (text []) with EmptyString.
  cbn [Loader.digits_value]. rewrite digit_val_char by exact Hd. reflexivity.
Qed.

Lemma str_nat_fuel_value f : forall n, 0 <= n < 10 ^ Z.of_nat (S f) ->
  Loader.digits_value 0 (text (str_nat_fuel f n [])) = Some n.
Proof.
  induction f as [|f IH]; intros n Hn.
  - change (10 ^ Z.of_nat 1) with 10 in Hn. cbn [str_nat_fuel].
    rewrite digits_value_single by (apply Z.mod_pos_bound; lia).
    rewrite Z.mod_small by lia. reflexivity.
  - cbn [str_nat_fuel]. destruct (Z.ltb_spec n 10).
    + rewrite digits_value_single by (apply Z.mod_pos_bound; lia).
      rewrite Z.mod_small by lia. reflexivity.
    + rewrite str_nat_fuel_app, text_app, digits_value_app, IH.
      * rewrite digits_value_single by (apply Z.mod_pos_bound; lia).
        f_equal. pose proof (Z.div_mod n 10 ltac:(lia)). lia.
      * split; [apply Z.div_pos; lia|].
        apply Z.div_lt_upper_bound; [lia|].
        rewrite <- Z.pow_succ_r by lia. rewrite <- Nat2Z.inj_succ. apply Hn.
Qed.

Lemma str_nat_fuel_enough n : 0 <= n -> n < 10 ^ Z.of_nat (S (Z.to_nat (Z.log2 n))).
Proof.
  intros Hn. rewrite Nat2Z.inj_succ, Z2Nat.id by apply Z.log2_nonneg.
  destruct (Z.eq_dec n 0) as [->|Hn0]; [reflexivity|].
  destruct (Z.log2_spec n ltac:(lia)) as [_ H].
  eapply Z.lt_le_trans; [exact H|].
  apply Z.pow_le_mono_l. lia.
Qed.

(** [str(n)] read back by the loader's digit parser. *)
Lemma str_nat_value n : 0 <= n -> Loader.digits_value 0 (text (str_nat n)) = Some n.
Proof.
  intros Hn. apply str_nat_fuel_value. split; [exact Hn|].
  apply str_nat_fuel_enough. exact Hn.
Qed.

Lemma digit_val_props c d : Loader.digit_val c = Some d ->
  Loader.is_space_ascii c = false /\ Ascii.eqb c "-" = false /\
  Ascii.eqb c "+" = false /\ (Ascii.nat_of_ascii c =? 0)%nat = false.
Proof.
  unfold Loader.digit_val.
  destruct ((48 <=? Ascii.nat_of_ascii c)%nat && (Ascii.nat_of_ascii c <=? 57)%nat)
    eqn:B; [|discriminate]. intros _.
  apply andb_true_iff in B as [B1 B2]. apply Nat.leb_le in B1, B2.
  unfold Loader.is_space_ascii.
  repeat split.
  - apply orb_false_iff. split; [apply Nat.eqb_neq; lia|].
    apply andb_false_iff. right. apply Nat.leb_gt. lia.
  - apply Ascii.eqb_neq. intros ->. change (Ascii.nat_of_ascii "-") with 45%nat in B1. lia.
  - apply Ascii.eqb_neq. intros ->. change (Ascii.nat_of_ascii "+") with 43%nat in B1. lia.
  - apply Nat.eqb_neq. lia.
Qed.

Lemma digits_value_no_nul acc s v : Loader.digits_value acc s = Some v ->
  Loader.has_nul s = false.
Proof.
  revert acc. induction s as [|c t IH]; intros acc H; [reflexivity|].
  cbn [Loader.digits_value] in H. destruct (Loader.digit_val c) as [d|] eqn:D;
    [|discriminate].
  cbn [Loader.has_nul]. rewrite (proj2 (proj2 (proj2 (digit_val_props c d D)))).
  exact (IH _ H).
Qed.

Lemma c_string_no_nul s : Loader.has_nul s = false -> Loader.c_string s = s.
Proof.
  induction s as [|c t IH]; intros H; [reflexivity|].
  cbn [Loader.has_nul] in H. apply orb_false_iff in H as [H1 H2].
  cbn [Loader.c_string]. rewrite H1, IH by exact H2. reflexivity.
Qed.

(** A run of digits is read to its end. *)
Lemma take_digits_all s : forall acc v f,
  Loader.digits_value acc s = Some v -> (String.length s <= f)%nat ->
  Loader.take_digits f acc s = (v, String.length s, EmptyString).
Proof.
  induction s as [|c t IH]; intros acc v f H Hf.
  - injection H as <-. destruct f; reflexivity.
  - cbn [Loader.digits_value] in H. destruct (Loader.digit_val c) as [d|] eqn:D;
      [|discriminate].
    destruct f as [|f]; [simpl in Hf; lia|].
    cbn [Loader.take_digits]. rewrite D.
    rewrite (IH _ _ f H) by (simpl in Hf; lia). reflexivity.
Qed.

(** [pd.to_numeric] on the text of a run of digits, with or without a
    leading minus sign. *)
Lemma parse_decimal_digits (neg : bool) (body : string) (m : Z) :
  Loader.digits_value 0 body = Some m -> body <> EmptyString ->
  exists v, Loader.parse_decimal (if neg then String minus body else body) = Some v
            /\ (v == if neg then - inject_Z m else inject_Z m)%Q.
Proof.
  intros Hv Hne. destruct body as [|c t]; [congruence|].
  pose proof Hv as Hc. cbn [Loader.digits_value] in Hc.
  destruct (Loader.digit_val c) as [d|] eqn:D; [|discriminate].
  destruct (digit_val_props c d D) as (Sp & Mi & Pl & Nu).
  pose proof (digits_value_no_nul _ _ _ Hv) as Hn.
  pose proof (take_digits_all _ _ _ _ Hv (le_n _)) as Ht.
  destruct neg; unfold Loader.parse_decimal.
  - assert (Hn' : Loader.has_nul (String minus (String c t)) = false).
    { change (Loader.has_nul (String minus (String c t)))
        with (false || Loader.has_nul (String c t)). rewrite Hn. reflexivity. }
    rewrite c_string_no_nul by exact Hn'.
    unfold Loader.xstrtod.
    assert (Hs : Loader.skip_spaces (String minus (String c t)) = String minus (String c t))
      by reflexivity.
    assert (Hg : Loader.take_sign (String minus (String c t)) = (true, String c t))
      by reflexivity.
    rewrite Hs, Hg. cbv iota beta.
    rewrite Ht. cbv iota beta.
    assert (L : (String.length (String c t) =? 0)%nat = false) by reflexivity.
    rewrite L. cbv iota beta. cbn [Loader.skip_spaces]. cbv iota beta. rewrite Hn'.
    eexists. split; [reflexivity|].
    unfold Loader.decimal_value. simpl. rewrite Z.mul_1_r. reflexivity.
  - rewrite c_string_no_nul by exact Hn.
    unfold Loader.xstrtod.
    assert (Hs : Loader.skip_spaces (String c t) = String c t)
      by (cbn [Loader.skip_spaces]; rewrite Sp; reflexivity).
    assert (Hg : Loader.take_sign (String c t) = (false, String c t))
      by (cbn [Loader.take_sign]; rewrite Mi, Pl; reflexivity).
    rewrite Hs, Hg. cbv iota beta.
    rewrite Ht. cbv iota beta.
    assert (L : (String.length (String c t) =? 0)%nat = false) by reflexivity.
    rewrite L. cbv iota beta. cbn [Loader.skip_spaces]. cbv iota beta. rewrite Hn.
    eexists. split; [reflexivity|].
    unfold Loader.decimal_value. simpl. rewrite Z.mul_1_r. reflexivity.
Qed.

(** The text of [str(n)] is read back as [n] by [pd.to_numeric]. *)
Lemma parse_decimal_str_int n :
  exists v, Loader.parse_decimal (text (str_int n)) = Some v /\ (v == inject_Z n)%Q.
Proof.
  unfold str_int. destruct (Z.ltb_spec n 0) as [N|N].
  - destruct (str_nat_cons (- n)) as (c & t & E & _).
    destruct (parse_decimal_digits true (text (str_nat (- n))) (- n))
      as (v & Hp & Hq).
    + apply str_nat_value. lia.
    + rewrite E. discriminate.
    + exists v. rewrite text_cons. split; [exact Hp|].
      rewrite Hq. unfold Qeq, Qopp, inject_Z. simpl. lia.
  - destruct (str_nat_cons n) as (c & t & E & _).
    destruct (parse_decimal_digits false (text (str_nat n)) n)
      as (v & Hp & Hq).
    + apply str_nat_value. lia.
    + rewrite E. discriminate.
    + exists v. split; [exact Hp|exact Hq].
Qed.

Lemma format_chars_clean q c : In c (format_with_indian_commas q) ->
  c <> "$"%char /\ c <> Ascii.ascii_of_nat 195.
Proof.
  intros H. destruct (format_with_indian_commas_chars q c H) as [->|[->|(d & Hd & ->)]].
  - split; discriminate.
  - split; discriminate.
  - destruct (digit_char_props d Hd) as (P1 & P2 & _). split; assumption.
Qed.

(** [pd.to_numeric] of a text whose first byte is no space, sign,
    digit or ['.']: NaN. *)
Lemma parse_decimal_nondigit_head c s :
  Loader.is_space_ascii c = false -> Ascii.eqb c "-" = false ->
  Ascii.eqb c "+" = false -> Ascii.eqb c "." = false -> Loader.digit_val c = None ->
  Loader.parse_decimal (String c s) = None.
Proof.
  intros H0 H1 H2 H3 H4. unfold Loader.parse_decimal. cbn [Loader.c_string].
  destruct (Ascii.nat_of_ascii c =? 0)%nat; [reflexivity|].
  unfold Loader.xstrtod. cbn [Loader.skip_spaces]. rewrite H0.
  cbn [Loader.take_sign]. rewrite H1, H2.
  cbn [String.length Loader.take_digits]. rewrite H4. cbv iota beta.
  rewrite H3. reflexivity.
Qed.

(** X5: the loader's cleaning of a numeric cell ([replace] of ['$'], the
    mis-decoded rupee sign and [','], then [pd.to_numeric]) reads the
    comma-grouped digits written by [format_with_indian_commas] back as
    the rounded amount. *)
Theorem clean_numeric_reads_grouped_digits (num : Q) :
  exists v,
    Loader.clean_numeric (Loader.CellStr (text (format_with_indian_commas num)))
      = Some v /\ (v == inject_Z (py_round num))%Q.
Proof.
  unfold Loader.clean_numeric, Loader.clean_cell, Loader.to_numeric.
  rewrite clean_text_text by apply format_chars_clean.
  rewrite format_with_indian_commas_remove_commas.
  apply parse_decimal_str_int.
Qed.

(** X6: the full text of [format_indian_money], rupee sign included, is
    not a number for the loader: its cleaning removes the mis-decoded
    rupee sign [â‚¹] but not the sign [₹] the formatter writes, so
    [pd.to_numeric] gives NaN for every amount. *)
Theorem clean_numeric_formatted_money_is_nan (amount : option Q) :
  Loader.clean_numeric (Loader.CellStr (text (format_indian_money amount))) = None.
Proof.
  assert (Hm : exists l, format_indian_money amount = rupee ++ l /\
                         forall c, In c l -> c <> "$"%char /\ c <> Ascii.ascii_of_nat 195).
  { unfold format_indian_money. destruct amount as [q|].
    - destruct (Qeq_bool q 0).
      + exists ["0"%char]. split; [reflexivity|]. intros c [<-|[]]. split; discriminate.
      + exists (format_with_indian_commas q). split; [reflexivity|].
        apply format_chars_clean.
    - exists ["0"%char]. split; [reflexivity|]. intros c [<-|[]]. split; discriminate. }
  destruct Hm as (l & -> & Hl).
  unfold Loader.clean_numeric, Loader.clean_cell, Loader.to_numeric.
  rewrite clean_text_text.
  2:{ intros c Hc. apply in_app_or in Hc. destruct Hc as [Hc|Hc]; [|apply Hl; exact Hc].
      destruct Hc as [<-|[<-|[<-|[]]]]; split; discriminate. }
  unfold remove_commas. rewrite filter_app.
  change (filter (fun c => negb (Ascii.eqb c comma)) rupee) with rupee.
  unfold rupee at 1. rewrite <- app_comm_cons, text_cons.
  apply parse_decimal_nondigit_head; reflexivity.
Qed.

(** The negative case at [-12345]. *)
Lemma format_with_indian_commas_negative_witness :
  py_round (-12345 # 1)%Q < 0 /\
  (let digits := str_nat (- py_round (-12345 # 1)%Q) in
   format_with_indian_commas (-12345 # 1)%Q =
   minus :: ((if Nat.odd (List.length digits) && Nat.leb 3 (List.length digits)
              then [comma] else []) ++ group_digits digits)).
Proof.
  split; [vm_compute; reflexivity|].
  apply format_with_indian_commas_negative. vm_compute. reflexivity.
Defined.

End FormatFacts.

Module GroupedFacts.

Import Calendar Grouped GroupedSales.

Local Open Scope Q_scope.






Lemma key_eqb_iff (k1 k2 : GroupKey) : key_eqb k1 k2 = true <-> k1 = k2.
Proof.
  destruct k1 as [[[a1 b1] c1] d1], k2 as [[[a2 b2] c2] d2]. simpl.
  rewrite !andb_true_iff, !String.eqb_eq. split.
  - intros (((-> & ->) & ->) & ->). reflexivity.
  - intros E. injection E as -> -> -> ->. tauto.
Qed.




Section Unique.

Context {A : Type} (eqb : A -> A -> bool).
Hypothesis eqb_iff : forall x y, eqb x y = true <-> x = y.

Lemma existsb_eqb (x : A) (l : list A) : existsb (eqb x) l = true <-> In x l.
Proof.
  rewrite existsb_exists. split.
  - intros (y & Hy & E). apply eqb_iff in E. subst. exact Hy.
  - intros H. exists x. split; [exact H|]. apply eqb_iff. reflexivity.
Qed.

Lemma unique_from_gen (seen l : list A) :
  NoDup (Sales.unique_from eqb seen l)
  /\ (forall x, In x (Sales.unique_from eqb seen l) -> ~ In x seen /\ In x l)
  /\ (forall x, In x l -> In x seen \/ In x (Sales.unique_from eqb seen l)).
Proof.
  revert seen. induction l as [|y t IH]; intros seen; simpl.
  - split; [constructor|]. split; [tauto|]. tauto.
  - destruct (existsb (eqb y) seen) eqn:E.
    + apply existsb_eqb in E.
      destruct (IH seen) as (Hnd & Hnot & Hcov).
      split; [exact Hnd|]. split.
      * intros x Hx. destruct (Hnot x Hx). split; [assumption|right; assumption].
      * intros x [<-|Hx]; [left; exact E|exact (Hcov x Hx)].
    + destruct (IH (y :: seen)) as (Hnd & Hnot & Hcov).
      split.
      * constructor; [|exact Hnd]. intros Hy. apply (Hnot y Hy). left. reflexivity.
      * split.
        -- intros x [<-|Hx].
           ++ split; [|left; reflexivity]. intros Hy.
              apply (existsb_eqb y seen) in Hy. congruence.
           ++ destruct (Hnot x Hx) as [Hn Hl]. split; [|right; exact Hl].
              intros Hs. apply Hn. right. exact Hs.
        -- intros x [<-|Hx]; [right; left; reflexivity|].
           destruct (Hcov x Hx) as [[<-|Hs]|Hu]; [right; left; reflexivity|left; exact Hs|].
           right. right. exact Hu.
Qed.

(** [unique()] lists each value of [l] once. *)
Lemma unique_gen (l : list A) :
  NoDup (Sales.unique eqb l) /\ (forall x, In x (Sales.unique eqb l) <-> In x l).
Proof.
  destruct (unique_from_gen [] l) as (Hnd & Hnot & Hcov).
  split; [exact Hnd|]. intros x. split.
  - intros Hx. apply (Hnot x Hx).
  - intros Hx. destruct (Hcov x Hx) as [[]|H]. exact H.
Qed.

End Unique.

Lemma in_flat_map_option {A B} (f : A -> option B) (l : list A) (y : B) :
  In y (flat_map (fun x => option_list (f x)) l) <-> exists x, In x l /\ f x = Some y.
Proof.
  rewrite in_flat_map. split.
  - intros (x & Hx & Hy). exists x. split; [exact Hx|].
    destruct (f x); simpl in Hy; [destruct Hy as [<-|[]]; reflexivity|destruct Hy].
  - intros (x & Hx & Hy). exists x. split; [exact Hx|]. rewrite Hy. left. reflexivity.
Qed.

(** The keys [groupby] makes groups of: each key of a row with a center
    name once, and nothing else. *)
Lemma group_keys_spec (rows : list SalesRow) :
  NoDup (group_keys rows) /\
  (forall k, In k (group_keys rows) <-> exists r, In r rows /\ group_key r = Some k).
Proof.
  unfold group_keys.
  set (l := flat_map (fun r => option_list (group_key r)) rows).
  destruct (unique_gen key_eqb key_eqb_iff l) as [Hnd Hin].
  pose proof (KeySort.Permuted_sort (Sales.unique key_eqb l)) as P.
  split.
  - exact (Permutation_NoDup P Hnd).
  - intros k. rewrite <- (Permutation_in' eq_refl P). rewrite Hin.
    apply in_flat_map_option.
Qed.

Lemma g_key_grouped_row (rows : list SalesRow) (k : GroupKey) :
  g_key (grouped_row rows k) = k.
Proof. destruct k as [[[y m] c] b]. reflexivity. Qed.





Lemma select_rows_filter (sel : string) (field : GroupedRow -> string)
    (g : list GroupedRow) :
  select_rows sel field g = filter (fun r => selected sel (field r)) g.
Proof.
  unfold select_rows, selected. destruct (String.eqb sel "All") eqn:E; simpl.
  - symmetry. apply filter_true.
  - apply filter_ext. intros r. reflexivity.
Qed.

Lemma filter_filter_andb {B} (p q : B -> bool) (l : list B) :
  filter q (filter p l) = filter (fun x => p x && q x) l.
Proof.
  induction l as [|x t IH]; simpl; [reflexivity|].
  destruct (p x); simpl; [destruct (q x); rewrite IH; reflexivity|exact IH].
Qed.


Lemma grouped_row_in (rows : list SalesRow) (g : GroupedRow) :
  In g (create_grouped_sales rows) ->
  g = grouped_row rows (g_key g) /\ In (g_key g) (group_keys rows).
Proof.
  unfold create_grouped_sales. intros H. apply in_map_iff in H.
  destruct H as (k & <- & Hk). rewrite g_key_grouped_row. split; [reflexivity|exact Hk].
Qed.

Lemma NoDup_same_length {B} (a b : list B) :
  NoDup a -> NoDup b -> (forall x, In x a <-> In x b) -> List.length a = List.length b.
Proof.
  intros Ha Hb H. apply Nat.le_antisymm; apply NoDup_incl_length; try assumption;
    intros x; apply H.
Qed.

(** X11: the "Total Outlets" of [render_mtd_sales_tab] is the number of
    distinct center names among the rows whose Year, BRAND and Month
    match the selections. *)
Theorem mtd_total_outlets_rows (selected_year selected_brand selected_month : string)
    (rows : list SalesRow) :
  total_outlets (mtd_filtered selected_year selected_brand selected_month
                   (create_grouped_sales rows))
  = List.length (Sales.unique String.eqb
      (flat_map (fun r => match SALON_NAMES r with
                          | Some s => if selected selected_year (Year r)
                                         && selected selected_brand (Loader.BRAND (row r))
                                         && selected selected_month (Month r)
                                      then [s] else []
                          | None => []
                          end) rows)).
Proof.
  unfold total_outlets. apply NoDup_same_length;
    [apply (unique_gen String.eqb String.eqb_eq)..|].
  intros s. rewrite !(proj2 (unique_gen String.eqb String.eqb_eq _)).
  unfold mtd_filtered. rewrite !select_rows_filter, !filter_filter_andb.
  rewrite in_map_iff, in_flat_map. split.
  - intros (g & Hs & Hg). apply filter_In in Hg. destruct Hg as [Hg Hsel].
    destruct (grouped_row_in rows g Hg) as [_ Hk].
    apply (proj2 (group_keys_spec rows) (g_key g)) in Hk.
    destruct Hk as (r & Hr & Gk). exists r. split; [exact Hr|].
    unfold group_key in Gk. destruct (SALON_NAMES r) as [c|]; [|discriminate].
    unfold g_key in Gk. injection Gk as Ey Em Ec Eb.
    rewrite Ey, Em, Eb, <- andb_assoc, Hsel. left. congruence.
  - intros (r & Hr & Hs). destruct (SALON_NAMES r) as [c|] eqn:Ec; [|destruct Hs].
    destruct (selected selected_year (Year r) && selected selected_brand (Loader.BRAND (row r))
              && selected selected_month (Month r)) eqn:Hsel; [|destruct Hs].
    destruct Hs as [<-|[]].
    assert (Gk : group_key r = Some (Year r, Month r, c, Loader.BRAND (row r)))
      by (unfold group_key; rewrite Ec; reflexivity).
    exists (grouped_row rows (Year r, Month r, c, Loader.BRAND (row r))).
    split; [reflexivity|]. apply filter_In. split.
    + unfold create_grouped_sales. apply in_map. apply group_keys_spec.
      exists r. split; assumption.
    + simpl. rewrite andb_assoc. exact Hsel.
Qed.

Local Close Scope Q_scope.
Local Open Scope Z_scope.

Lemma doy_range (doe : Z) : 0 <= doe < 146097 -> 0 <= doy_of_doe doe <= 365.
Proof. intros H. unfold doy_of_doe, yoe_of_doe. Z.div_mod_to_equations. lia. Qed.

Lemma civil_from_days_eq (dn : Z) :
  civil_from_days dn =
  (let era := (dn + 719468) / 146097 in
   let doe := (dn + 719468) mod 146097 in
   let m := month_of_doe doe in
   (if m <=? 2 then yoe_of_doe doe + era * 400 + 1 else yoe_of_doe doe + era * 400,
    m, day_of_doe doe)).
Proof.
  unfold civil_from_days, month_of_doe, day_of_doe, doy_of_doe, yoe_of_doe. cbv zeta.
  rewrite (Z.mod_eq _ 146097) by lia.
  replace (146097 * ((dn + 719468) / 146097))%Z
    with ((dn + 719468) / 146097 * 146097)%Z by ring.
  reflexivity.
Qed.






Lemma month_of_doe_range (doe : Z) :
  0 <= doe < 146097 -> 1 <= month_of_doe doe <= 12.
Proof.
  intros H. pose proof (doy_range doe H) as D. unfold month_of_doe.
  set (doy := doy_of_doe doe) in *. clearbody doy.
  destruct (Z.ltb_spec ((5 * doy + 2) / 153) 10); Z.div_mod_to_equations; lia.
Qed.

Lemma month_sorted_strftime (m : Z) :
  1 <= m <= 12 -> month_sorted (strftime_B m) = Some (Z.to_nat (m - 1)).
Proof.
  intros H.
  assert (m = 1 \/ m = 2 \/ m = 3 \/ m = 4 \/ m = 5 \/ m = 6 \/ m = 7 \/ m = 8
          \/ m = 9 \/ m = 10 \/ m = 11 \/ m = 12) as E by lia.
  repeat destruct E as [->|E]; try (subst m); vm_compute; reflexivity.
Qed.

(** X12: the Month of every row is one of the twelve names of
    [create_month_order], at the position of its calendar month: the
    [Month_Sorted] column of [add_month_sorting_column] is never NaN and
    sorts months in calendar order. *)
Theorem month_sorted_Month (r : SalesRow) :
  let m := month_of (Loader.sale_date (row r)) in
  1 <= m <= 12 /\ month_sorted (Month r) = Some (Z.to_nat (m - 1)).
Proof.
  intros m.
  assert (Hm : 1 <= m <= 12).
  { subst m. unfold month_of. rewrite civil_from_days_eq. cbv zeta. simpl.
    apply month_of_doe_range. apply Z.mod_pos_bound. lia. }
  split; [exact Hm|]. unfold Month. apply month_sorted_strftime. exact Hm.
Qed.

End GroupedFacts.

Module LoaderFacts.

Import Calendar Loader Samples.
Local Open Scope Z_scope.














End LoaderFacts.
